(** * Cine reservation API: the request handlers of [api/views/views.py]

    A shallow embedding of the Flask handlers over an explicit store.  The
    tables are finite maps from primary key to row; a handler takes the
    store and the decoded JSON body and returns the store after
    [db.session.commit()] together with the pair [(body, status)] the
    Python function returns. *)

From stdpp Require Import gmap strings list fin_maps.

Local Open Scope string_scope.
Local Open Scope Z_scope.
Local Open Scope list_scope.

(** ** Rows

    The model classes are declared in [api/models/models.py]; a row has the
    columns the handlers read and write (constructor calls at views.py:65,
    290 and 349, the listing at views.py:208 and the token identity at
    views.py:164).  [password_hash] stands for the credential that
    [set_password] stores.  The primary key [id] is the key of the table. *)

Record User := mkUser {
  username : string;
  password_hash : string;
  is_admin : bool
}.

Record Movie := mkMovie {
  title : string;
  description : option string;
  room : string;
  seats : Z
}.

Record Reservation := mkReservation {
  movie_id : option Z;
  user_id : option Z;
  room_select : string
}.

Record Store := mkStore {
  users : gmap Z User;
  movies : gmap Z Movie;
  reservations : list Reservation
}.

(** ** Requests and responses

    [data.get(key)] yields [None] for an absent key; the types of the
    present values are those of the schema in each handler's docstring. *)

Record LoginRequest := mkLoginRequest {
  login_username : option string;
  login_password : option string
}.

Record ReservationRequest := mkReservationRequest {
  req_movie_id : option Z;
  req_user_id : option Z
}.

Record ShowingRequest := mkShowingRequest {
  req_title : option string;
  req_description : option string;
  req_room : option string;
  req_seats : option Z
}.

Inductive Body :=
| Message (message : string)
| LoginBody (message access_token : string) (id : Z) (admin : bool).

(** [return jsonify(body), status] *)
Definition Response : Type := Body * Z.

Definition status (r : Response) : Z := snd r.

(** ** Python truthiness of the request fields *)

Definition truthy_str (v : option string) : bool :=
  match v with
  | Some s => negb (String.eqb s "")
  | None => false
  end.

Definition truthy_int (v : option Z) : bool :=
  match v with
  | Some n => negb (n =? 0)%Z
  | None => false
  end.

(** ** Queries *)

(** [Model.query.get(ident)]: the row with that primary key, [None] when
    there is none (also for the identity [None]). *)
Definition query_get {A} (table : gmap Z A) (ident : option Z) : option A :=
  match ident with
  | Some i => table !! i
  | None => None
  end.

(** [Movie.query.filter_by(room=room)]: the rows in the store's order. *)
Definition filter_by_room (table : gmap Z Movie) (r : string) : list (Z * Movie) :=
  filter (λ row, room row.2 = r) (map_to_list table).

(** [User.query.filter_by(username=username)] *)
Definition filter_by_username (table : gmap Z User) (name : option string)
  : list (Z * User) :=
  filter (λ row, Some (username row.2) = name) (map_to_list table).

(** [.first()] *)
Definition query_first {A} (rows : list A) : option A := head rows.

(** [Reservation.query.filter_by(movie_id=movie_id)] *)
Definition filter_by_movie_id (rows : list Reservation) (i : Z) : list Reservation :=
  filter (λ r, movie_id r = Some i) rows.

(** [Reservation.query.filter_by(movie_id=movie_id).delete()]: what is left. *)
Definition delete_by_movie_id (rows : list Reservation) (i : Z) : list Reservation :=
  filter (λ r, movie_id r ≠ Some i) rows.

(** ** Reservations: [create_reservation], views.py:250-298 *)

Definition with_seats (movie : Movie) (n : Z) : Movie :=
  mkMovie (title movie) (description movie) (room movie) n.

(** The flush of a loaded row whose attributes were assigned: the row with
    that primary key is overwritten. *)
Definition update_row {A} (table : gmap Z A) (ident : option Z) (row : A)
  : gmap Z A :=
  match ident with
  | Some i => <[i := row]> table
  | None => table
  end.

Definition create_reservation (s : Store) (data : ReservationRequest)
  : Store * Response :=
  let movie_id := req_movie_id data in
  let user_id := req_user_id data in
  match query_get (movies s) movie_id with
  | None => (s, (Message "Movie not found", 404))
  | Some movie =>
    if (seats movie <=? 0)%Z then
      (s, (Message "Don't have available seats to this movie", 400))
    else
      let movie := with_seats movie (seats movie - 1) in
      let reservation := mkReservation movie_id user_id (room movie) in
      (mkStore (users s) (update_row (movies s) movie_id movie)
               (reservations s ++ [reservation]),
       (Message "Reservation created successfully", 201))
  end.

(** ** Deleting a showing: [delete_movie], views.py:360-387 *)

Definition delete_movie (s : Store) (i : Z) : Store * Response :=
  match movies s !! i with
  | None => (s, (Message "Movie not found", 404))
  | Some _ =>
    (mkStore (users s) (delete i (movies s))
             (delete_by_movie_id (reservations s) i),
     (Message "Movie deleted successfully", 200))
  end.

(** ** The admin gate: [admin_required], views.py:11-25

    [current_user] is the identity of the verified token, the dictionary
    built at views.py:164. *)

Record Identity := mkIdentity {
  identity_id : Z;
  identity_is_admin : bool
}.

Definition admin_required (f : Store → Store * Response)
    (current_user : option Identity) (s : Store) : Store * Response :=
  match current_user with
  | Some u =>
    if identity_is_admin u then f s
    else (s, (Message "Access denied, you are not an admin", 403))
  | None => (s, (Message "Access denied, you are not an admin", 403))
  end.

(** ** Primary keys of new rows

    The store assigns the key of an inserted row.  [next_rowid] is the
    rule of an integer primary key without a sequence: one more than the
    largest key in the table. *)

Definition next_rowid {A} (table : gmap Z A) : Z :=
  1 + foldr Z.max 0 (map_to_list table).*1.

Section handlers.

(** The key the store gives to a new movie row.  The properties below
    assume of it only that it is never a key in use. *)
Variable new_movie_id : gmap Z Movie → Z.

(** [User.check_password] and [create_access_token] belong to the model
    class and to the token library. *)
Variable check_password : User → option string → bool.
Variable create_access_token : Identity → string.

(** ** Creating a showing: [add_showing_movie], views.py:303-355 *)

Definition add_showing_movie (s : Store) (data : ShowingRequest)
  : Store * Response :=
  let title := req_title data in
  let description := req_description data in
  let room := req_room data in
  let seats := req_seats data in
  if negb (truthy_str title) || negb (truthy_str room) || negb (truthy_int seats)
  then (s, (Message "Title, room and seats are required", 400))
  else
    match title, room, seats with
    | Some title, Some room, Some seats =>
      match query_first (filter_by_room (movies s) room) with
      | Some existing_movie => (s, (Message "Room already in use", 400))
      | None =>
        let new_movie := mkMovie title description room seats in
        (mkStore (users s)
                 (<[new_movie_id (movies s) := new_movie]> (movies s))
                 (reservations s),
         (Message "Movie added successfully", 201))
      end
    | _, _, _ =>
      (* not reached: a truthy field is present *)
      (s, (Message "Title, room and seats are required", 400))
    end.

(** ** Login: [login], views.py:120-172

    The second component is the user handed to [login_user], if any. *)

Definition login (s : Store) (data : LoginRequest) : Response * option Z :=
  let username := login_username data in
  let password := login_password data in
  match query_first (filter_by_username (users s) username) with
  | Some (uid, user) =>
    if check_password user password then
      let access_token :=
        create_access_token (mkIdentity uid (is_admin user)) in
      ((LoginBody "Login successful" access_token uid (is_admin user), 200),
       Some uid)
    else ((Message "Credentials are incorrect. Please try again.", 401), None)
  | None => ((Message "Credentials are incorrect. Please try again.", 401), None)
  end.

(** ** Sequences of ledger operations *)

Inductive Op :=
| CreateShowing (data : ShowingRequest)
| AttemptReservation (data : ReservationRequest)
| DeleteShowing (i : Z).

Definition step (s : Store) (op : Op) : Store * Response :=
  match op with
  | CreateShowing data => add_showing_movie s data
  | AttemptReservation data => create_reservation s data
  | DeleteShowing i => delete_movie s i
  end.

Definition run (s : Store) (ops : list Op) : Store :=
  foldl (λ s op, (step s op).1) s ops.

(** The handlers keep one counter per showing, [seats].  The capacity a
    showing was created with is specification state: [total_seats] records
    it next to the store, per primary key, and is never read by a handler. *)

Record Ledger := mkLedger {
  store : Store;
  total_seats : gmap Z Z
}.

Definition ledger_step (l : Ledger) (op : Op) : Ledger :=
  let '(s, r) := step (store l) op in
  mkLedger s
    match op with
    | CreateShowing data =>
      match req_seats data with
      | Some n =>
        if bool_decide (status r = 201)
        then <[new_movie_id (movies (store l)) := n]> (total_seats l)
        else total_seats l
      | None => total_seats l
      end
    | AttemptReservation _ => total_seats l
    | DeleteShowing i =>
      if bool_decide (status r = 200) then delete i (total_seats l)
      else total_seats l
    end.

Definition ledger_run (l : Ledger) (ops : list Op) : Ledger :=
  foldl ledger_step l ops.

(** The application starts with the tables created and no showing. *)
Definition initial_store (us : gmap Z User) : Store := mkStore us ∅ [].
Definition initial_ledger (us : gmap Z User) : Ledger :=
  mkLedger (initial_store us) ∅.

End handlers.

(** [remaining_seats] of the showing [i], and its live reservations *)
Definition remaining_seats (s : Store) (i : Z) : option Z :=
  seats <$> movies s !! i.

Definition live_reservations (s : Store) (i : Z) : Z :=
  Z.of_nat (length (filter_by_movie_id (reservations s) i)).

(** Reservation attempts one after the other, and how many of those
    against the showing [i] succeeded. *)
Fixpoint attempt_all (s : Store) (reqs : list ReservationRequest) : Store :=
  match reqs with
  | [] => s
  | data :: reqs => attempt_all (create_reservation s data).1 reqs
  end.

Fixpoint successes (i : Z) (s : Store) (reqs : list ReservationRequest) : Z :=
  match reqs with
  | [] => 0
  | data :: reqs =>
    let '(s', r) := create_reservation s data in
    (if bool_decide (req_movie_id data = Some i ∧ status r = 201) then 1 else 0)
    + successes i s' reqs
  end.

(** ** Two requests in flight

    [create_reservation] talks to the store twice: the load at views.py:281
    and the commit at views.py:296.  Between the two the request works on
    the row it loaded.  A [Task] is a request at one of these points; the
    store serves one statement at a time, in the order of the schedule. *)

Inductive Task :=
| Received (data : ReservationRequest)
| Loaded (data : ReservationRequest) (movie : option Movie)
| Returned (r : Response)
| Raised.

(** The commit: [UPDATE movie SET seats = ... WHERE id = ...] with the value
    computed from the loaded row, and the [INSERT] of the reservation.  An
    update that matches no row raises. *)
Definition commit_reservation (s : Store) (data : ReservationRequest)
    (movie : Movie) : option Store :=
  match query_get (movies s) (req_movie_id data) with
  | Some current =>
    Some (mkStore (users s)
            (update_row (movies s) (req_movie_id data)
               (with_seats current (seats movie)))
            (reservations s
               ++ [mkReservation (req_movie_id data) (req_user_id data)
                     (room movie)]))
  | None => None
  end.

Definition task_step (s : Store) (t : Task) : Store * Task :=
  match t with
  | Received data =>
    (s, Loaded data (query_get (movies s) (req_movie_id data)))
  | Loaded data None => (s, Returned (Message "Movie not found", 404))
  | Loaded data (Some movie) =>
    if (seats movie <=? 0)%Z then
      (s, Returned (Message "Don't have available seats to this movie", 400))
    else
      let movie := with_seats movie (seats movie - 1) in
      match commit_reservation s data movie with
      | Some s' => (s', Returned (Message "Reservation created successfully", 201))
      | None => (s, Raised)
      end
  | Returned _ | Raised => (s, t)
  end.

(** [false] lets the first request take its next step, [true] the second. *)
Fixpoint interleave (s : Store) (a b : Task) (schedule : list bool)
  : Store * Task * Task :=
  match schedule with
  | [] => (s, a, b)
  | false :: schedule =>
    let '(s', a') := task_step s a in interleave s' a' b schedule
  | true :: schedule =>
    let '(s', b') := task_step s b in interleave s' a b' schedule
  end.

(** ** Accounts: [create_user] and [reset_password], views.py:28-116 *)

Record UserRequest := mkUserRequest {
  new_username : option string;
  new_user_password : option string
}.

Record ResetRequest := mkResetRequest {
  new_password : option string
}.

(** [User.query.filter_by(is_admin=True)], app.py:86 *)
Definition filter_by_is_admin (table : gmap Z User) (b : bool)
  : list (Z * User) :=
  filter (λ row, is_admin row.2 = b) (map_to_list table).

Section accounts.

(** The key the store gives to a new user row. *)
Variable new_user_id : gmap Z User → Z.

(** [models.User(username=...)] sets the username and leaves the other
    columns at the defaults of the model class, which [blank_user] holds.
    [User.set_password] is the method of the model class. *)
Variable blank_user : User.
Variable set_password : User → string → User.

Definition new_user (name : string) : User :=
  mkUser name (password_hash blank_user) (is_admin blank_user).

Definition create_user (s : Store) (data : UserRequest) : Store * Response :=
  let username := new_username data in
  let password := new_user_password data in
  if truthy_str username && truthy_str password then
    match username, password with
    | Some username, Some password =>
      match query_first (filter_by_username (users s) (Some username)) with
      | Some existing_user => (s, (Message "The user already exists", 409))
      | None =>
        let user := set_password (new_user username) password in
        (mkStore (<[new_user_id (users s) := user]> (users s))
                 (movies s) (reservations s),
         (Message "User created successfully", 201))
      end
    | _, _ =>
      (* not reached: a truthy field is present *)
      (s, (Message "User and password are required", 400))
    end
  else (s, (Message "User and password are required", 400)).

Definition reset_password (s : Store) (user_id : Z) (data : ResetRequest)
  : Store * Response :=
  match users s !! user_id with
  | Some user =>
    match new_password data with
    | Some new_password =>
      (mkStore (<[user_id := set_password user new_password]> (users s))
               (movies s) (reservations s),
       (Message "Password reset successfully", 200))
    | None => (s, (Message "The new password is required", 400))
    end
  | None => (s, (Message "User not found", 404))
  end.

(** ** Start-up: [create_default_admin] and the block at app.py:84-87 *)

Definition create_default_admin (s : Store) : Store :=
  let default_admin := set_password (new_user "admin") "admin" in
  let default_admin :=
    mkUser (username default_admin) (password_hash default_admin) true in
  mkStore (<[new_user_id (users s) := default_admin]> (users s))
          (movies s) (reservations s).

Definition create_app (s : Store) : Store :=
  match query_first (filter_by_is_admin (users s) true) with
  | Some _ => s
  | None => create_default_admin s
  end.

End accounts.

(** ** Reading the showings: [get_movies] and [get_movie], views.py:175-246 *)

Record MovieEntry := mkMovieEntry {
  entry_id : Z;
  entry_Title : string;
  entry_Description : option string;
  entry_Seats : Z;
  entry_Room : string
}.

Inductive ReadBody :=
| ReadMessage (message : string)
| MovieList (movie_list : list MovieEntry)
| MovieDetail (id : Z) (title : string) (description : option string).

Definition movie_entry (row : Z * Movie) : MovieEntry :=
  mkMovieEntry row.1 (title row.2) (description row.2) (seats row.2)
    (room row.2).

(** [jsonify(...)] returned without a status is answered with 200. *)
Definition get_movies (s : Store) : ReadBody * Z :=
  let movies := map_to_list (movies s) in
  match movies with
  | [] => (ReadMessage "No movies found.", 200)
  | _ => (MovieList (movie_entry <$> movies), 200)
  end.

Definition status_of_read (r : ReadBody * Z) : Z := snd r.

Definition get_movie (s : Store) (i : Z) : ReadBody * Z :=
  match movies s !! i with
  | Some movie => (MovieDetail i (title movie) (description movie), 200)
  | None => (ReadMessage "Movie not found", 404)
  end.

(** ** The routes together

    A request to one of the routes of the blueprint, with the identity of
    its token for the two admin routes, and the store it leaves. *)

Inductive Request :=
| PostUsers (data : UserRequest)
| PostResetPassword (user_id : Z) (data : ResetRequest)
| PostLogin (data : LoginRequest)
| GetMovies
| GetMovie (i : Z)
| PostReservations (data : ReservationRequest)
| PostShowingMovies (current_user : option Identity) (data : ShowingRequest)
| DeleteMovie (current_user : option Identity) (i : Z).

Section routes.

Variable new_movie_id : gmap Z Movie → Z.
Variable new_user_id : gmap Z User → Z.
Variable blank_user : User.
Variable set_password : User → string → User.

Definition serve (s : Store) (req : Request) : Store :=
  match req with
  | PostUsers data => (create_user new_user_id blank_user set_password s data).1
  | PostResetPassword user_id data => (reset_password set_password s user_id data).1
  | PostLogin _ | GetMovies | GetMovie _ => s
  | PostReservations data => (create_reservation s data).1
  | PostShowingMovies current_user data =>
    (admin_required (λ s, add_showing_movie new_movie_id s data) current_user s).1
  | DeleteMovie current_user i =>
    (admin_required (λ s, delete_movie s i) current_user s).1
  end.

Definition serve_all (s : Store) (reqs : list Request) : Store :=
  foldl serve s reqs.

End routes.

(** The request does not come from an administrator. *)
Definition not_admin (req : Request) : Prop :=
  match req with
  | PostShowingMovies current_user _ | DeleteMovie current_user _ =>
    identity_is_admin <$> current_user ≠ Some true
  | _ => True
  end.

(** No two users share a username. *)
Definition unique_usernames (s : Store) : Prop :=
  ∀ i j ui uj,
    users s !! i = Some ui → users s !! j = Some uj →
    username ui = username uj → i = j.

(** Some user is an administrator. *)
Definition has_admin (s : Store) : Prop :=
  ∃ i u, users s !! i = Some u ∧ is_admin u = true.

(** Every reservation row references a showing in the store and holds the
    room of that showing. *)
Definition room_recorded (s : Store) : Prop :=
  ∀ r, r ∈ reservations s →
    ∃ i m, movie_id r = Some i ∧ movies s !! i = Some m
         ∧ room_select r = room m.

(** From [s] to [s'] the showings are the same rows under the same keys,
    except that a seat counter may have gone down. *)
Definition showings_kept (s s' : Store) : Prop :=
  ∀ i,
    match movies s !! i with
    | Some m =>
      ∃ m', movies s' !! i = Some m'
          ∧ title m' = title m ∧ description m' = description m
          ∧ room m' = room m ∧ seats m' ≤ seats m
    | None => movies s' !! i = None
    end.

(** From [s] to [s'] every user is still there, under the same key, with
    the same username and admin flag. *)
Definition users_kept (s s' : Store) : Prop :=
  ∀ i u, users s !! i = Some u →
    ∃ u', users s' !! i = Some u'
        ∧ username u' = username u ∧ is_admin u' = is_admin u.

(** A credential store for the concrete runs: the password itself. *)
Definition set_plain (u : User) (password : string) : User :=
  mkUser (username u) password (is_admin u).

Definition nobody : User := mkUser "" "" false.

Definition ana_request : UserRequest :=
  mkUserRequest (Some "ana") (Some "pw").

Definition visitor_requests : list Request :=
  [PostReservations (mkReservationRequest (Some 1) (Some 1));
   DeleteMovie None 1;
   PostShowingMovies (Some (mkIdentity 2 false))
     (mkShowingRequest (Some "Brazil") None (Some "B") (Some 3))].

(** ** Vocabulary of the properties *)

(** Some showing occupies the room [r]. *)
Definition room_in_use (s : Store) (r : string) : Prop :=
  ∃ i m, movies s !! i = Some m ∧ room m = r.

(** A required field counts as missing when the key is absent or its value
    is falsy: the empty string, the number 0. *)
Definition missing_str (v : option string) : Prop := v = None ∨ v = Some "".
Definition missing_int (v : option Z) : Prop := v = None ∨ v = Some 0.

(** Every showing has a room of its own. *)
Definition unique_rooms (s : Store) : Prop :=
  ∀ i j mi mj,
    movies s !! i = Some mi → movies s !! j = Some mj →
    room mi = room mj → i = j.

(** Every reservation row references a showing in the store. *)
Definition references_showing (s : Store) : Prop :=
  ∀ r, r ∈ reservations s →
    ∃ i, movie_id r = Some i ∧ is_Some (movies s !! i).

(** Every showing has a recorded capacity [t]; its counter lies between
    [min 0 t] and [t], and the seats taken are its live reservations. *)
Definition seats_accounted (l : Ledger) : Prop :=
  ∀ i m, movies (store l) !! i = Some m →
    ∃ t, total_seats l !! i = Some t
       ∧ Z.min 0 t ≤ seats m ∧ seats m ≤ t
       ∧ live_reservations (store l) i = t - seats m.

(** ** Stores and requests of the concrete runs *)

Definition one_seat_store : Store :=
  mkStore ∅ {[ 1 := mkMovie "Alien" None "A" 1 ]} [].

Definition first_request : ReservationRequest :=
  mkReservationRequest (Some 1) (Some 1).

Definition second_request : ReservationRequest :=
  mkReservationRequest (Some 1) (Some 2).

Definition alien_request (n : Z) : ShowingRequest :=
  mkShowingRequest (Some "Alien") None (Some "A") (Some n).

Definition admin_only : gmap Z User := {[ 1 := mkUser "admin" "hash" true ]}.

(** A password check and a token for the concrete runs. *)
Definition check_plain (u : User) (password : option string) : bool :=
  bool_decide (password = Some (password_hash u)).

Definition token_of (who : Identity) : string := "token".

(** * Properties *)

(** ** Reservation attempts *)

Lemma filter_by_movie_id_app rows rows' i :
  filter_by_movie_id (rows ++ rows') i
  = filter_by_movie_id rows i ++ filter_by_movie_id rows' i.
Proof. apply filter_app. Qed.

Lemma live_reservations_snoc s s' r i :
  reservations s' = reservations s ++ [r] →
  live_reservations s' i
  = live_reservations s i + (if bool_decide (movie_id r = Some i) then 1 else 0).
Proof.
  intros Hrows. unfold live_reservations. rewrite Hrows.
  rewrite filter_by_movie_id_app, length_app.
  unfold filter_by_movie_id at 2. rewrite filter_cons, filter_nil.
  case_bool_decide; case_decide; simpl; try lia; tauto.
Qed.

(** The three outcomes of [create_reservation], by the state of the showing. *)
Lemma create_reservation_cases s data :
  (query_get (movies s) (req_movie_id data) = None
   ∧ create_reservation s data = (s, (Message "Movie not found", 404)))
  ∨ (∃ movie, query_get (movies s) (req_movie_id data) = Some movie
      ∧ seats movie ≤ 0
      ∧ create_reservation s data
        = (s, (Message "Don't have available seats to this movie", 400)))
  ∨ (∃ i movie, req_movie_id data = Some i ∧ movies s !! i = Some movie
      ∧ 0 < seats movie
      ∧ create_reservation s data
        = (mkStore (users s)
             (<[i := with_seats movie (seats movie - 1)]> (movies s))
             (reservations s
                ++ [mkReservation (Some i) (req_user_id data) (room movie)]),
           (Message "Reservation created successfully", 201))).
Proof.
  unfold create_reservation, query_get, update_row.
  destruct (req_movie_id data) as [i|] eqn:Hid; [|by left].
  destruct (movies s !! i) as [movie|] eqn:Hm; [|by left].
  destruct (Z.leb_spec (seats movie) 0) as [Hle|Hgt].
  - right; left. by exists movie.
  - right; right. by exists i, movie.
Qed.

(** C1: when the showing exists and has a seat left, [create_reservation]
    answers 201, takes exactly one seat off that showing and adds exactly
    one reservation row carrying the request's showing and user (and the
    showing's room); nothing else in the store changes.  Whatever the
    request, the seat and the row go together: either the store is left as
    it was, or one seat is gone and one row was added. *)
Theorem create_reservation_success s data i movie :
  req_movie_id data = Some i →
  movies s !! i = Some movie →
  0 < seats movie →
  let new_row := mkReservation (Some i) (req_user_id data) (room movie) in
  (∃ s',
    create_reservation s data
      = (s', (Message "Reservation created successfully", 201))
    ∧ remaining_seats s' i = Some (seats movie - 1)
    ∧ movies s' = <[i := with_seats movie (seats movie - 1)]> (movies s)
    ∧ reservations s' = reservations s ++ [new_row]
    ∧ live_reservations s' i = live_reservations s i + 1
    ∧ users s' = users s)
  ∧ (∀ s0 data0,
      let s1 := (create_reservation s0 data0).1 in
      s1 = s0
      ∨ ∃ j m r, movies s0 !! j = Some m
          ∧ movies s1 = <[j := with_seats m (seats m - 1)]> (movies s0)
          ∧ reservations s1 = reservations s0 ++ [r]
          ∧ movie_id r = Some j ∧ user_id r = req_user_id data0).
Proof.
  intros Hid Hm Hpos new_row. split.
  - destruct (create_reservation_cases s data)
      as [[Hq _]|[(m & Hq & Hle & _)|(j & m & Hj & Hmj & _ & Heq)]].
    + unfold query_get in Hq. rewrite Hid in Hq. congruence.
    + unfold query_get in Hq. rewrite Hid in Hq.
      assert (m = movie) by congruence. subst. lia.
    + assert (j = i) by congruence. subst j.
      assert (m = movie) by congruence. subst m.
      eexists. split; [exact Heq|].
      repeat split.
      * unfold remaining_seats; simpl. by rewrite lookup_insert_eq.
      * rewrite (live_reservations_snoc s _ new_row) by done.
        by rewrite bool_decide_eq_true_2.
  - intros s0 data0 s1. subst s1.
    destruct (create_reservation_cases s0 data0)
      as [[_ Heq]|[(m & _ & _ & Heq)|(j & m & Hj & Hmj & _ & Heq)]];
      rewrite Heq; simpl; [by left|by left|right].
    exists j, m, (mkReservation (Some j) (req_user_id data0) (room m)).
    by repeat split.
Qed.

Lemma create_reservation_success_witness :
  ∃ s', create_reservation
          (mkStore ∅ {[ 1 := mkMovie "Alien" None "A" 2 ]} [])
          (mkReservationRequest (Some 1) (Some 7))
        = (s', (Message "Reservation created successfully", 201))
      ∧ remaining_seats s' 1 = Some 1.
Proof.
  destruct (create_reservation_success
              (mkStore ∅ {[ 1 := mkMovie "Alien" None "A" 2 ]} [])
              (mkReservationRequest (Some 1) (Some 7)) 1
              (mkMovie "Alien" None "A" 2)) as [(s' & H1 & H2 & _) _].
  - reflexivity.
  - reflexivity.
  - simpl; lia.
  - exists s'. split; [exact H1 | exact H2].
Defined.

(** C3: [create_reservation] answers 404 exactly when no showing has the
    requested key, and 400 exactly when the showing exists with
    [seats <= 0]; every answer other than 201 leaves the store as it was. *)
Theorem create_reservation_failure s data :
  let '(s', r) := create_reservation s data in
  (status r = 404 ↔ query_get (movies s) (req_movie_id data) = None)
  ∧ (status r = 400
     ↔ ∃ movie, query_get (movies s) (req_movie_id data) = Some movie
         ∧ seats movie ≤ 0)
  ∧ (status r = 404 → r = (Message "Movie not found", 404) ∧ s' = s)
  ∧ (status r = 400
     → r = (Message "Don't have available seats to this movie", 400) ∧ s' = s)
  ∧ (status r ≠ 201 → s' = s).
Proof.
  destruct (create_reservation_cases s data)
    as [[Hq Heq]|[(m & Hq & Hle & Heq)|(j & m & Hj & Hmj & Hpos & Heq)]];
    rewrite Heq; unfold status; simpl.
  - repeat split; try done. intros (m & Hm & _). congruence.
  - repeat split; try done.
    + congruence.
    + intros _. by exists m.
  - assert (Hq : query_get (movies s) (req_movie_id data) = Some m)
      by (unfold query_get; by rewrite Hj).
    repeat split; try done.
    + congruence.
    + intros (m' & Hm' & Hle). assert (m' = m) by congruence. subst. lia.
Qed.

(** ** Queries over a table *)

Lemma query_first_filter_None {A} (P : A → Prop) `{∀ x, Decision (P x)}
    (rows : list A) :
  query_first (filter P rows) = None ↔ ∀ x, x ∈ rows → ¬ P x.
Proof.
  unfold query_first. induction rows as [|y rows IH]; simpl.
  - split; [|done]. intros _ x Hx. by apply not_elem_of_nil in Hx.
  - rewrite filter_cons. case_decide as Hy; simpl.
    + split; [done|]. intros Hall. exfalso. apply (Hall y); [left|done].
    + rewrite IH. split.
      * intros Hall x Hx. apply elem_of_cons in Hx as [->|Hx]; auto.
      * intros Hall x Hx. apply Hall. by right.
Qed.

Lemma query_first_filter_Some {A} (P : A → Prop) `{∀ x, Decision (P x)}
    (rows : list A) x :
  query_first (filter P rows) = Some x → x ∈ rows ∧ P x.
Proof.
  unfold query_first. intros Hx. apply head_Some_elem_of in Hx.
  by apply list_elem_of_filter in Hx as [? ?].
Qed.

Lemma filter_by_room_None s r :
  query_first (filter_by_room (movies s) r) = None ↔ ¬ room_in_use s r.
Proof.
  unfold filter_by_room. rewrite query_first_filter_None. split.
  - intros Hall (i & m & Hm & Hr).
    apply (Hall (i, m)); [by apply elem_of_map_to_list|done].
  - intros Hno [i m] Hin Hr. apply elem_of_map_to_list in Hin.
    apply Hno. by exists i, m.
Qed.

Lemma filter_by_room_Some s r row :
  query_first (filter_by_room (movies s) r) = Some row → room_in_use s r.
Proof.
  intros H. apply query_first_filter_Some in H as [Hin Hr].
  destruct row as [i m]. apply elem_of_map_to_list in Hin. by exists i, m.
Qed.

Lemma filter_by_username_None s name :
  query_first (filter_by_username (users s) name) = None
  ↔ ∀ i u, users s !! i = Some u → Some (username u) ≠ name.
Proof.
  unfold filter_by_username. rewrite query_first_filter_None. split.
  - intros Hall i u Hu. apply (Hall (i, u)). by apply elem_of_map_to_list.
  - intros Hall [i u] Hin. apply elem_of_map_to_list in Hin. by apply (Hall i u).
Qed.

Lemma filter_by_username_Some s name i u :
  query_first (filter_by_username (users s) name) = Some (i, u)
  → users s !! i = Some u ∧ Some (username u) = name.
Proof.
  intros H. apply query_first_filter_Some in H as [Hin Hr].
  by apply elem_of_map_to_list in Hin.
Qed.

Lemma next_rowid_fresh {A} (table : gmap Z A) : table !! next_rowid table = None.
Proof.
  destruct (table !! next_rowid table) as [x|] eqn:Hx; [|done].
  exfalso. apply elem_of_map_to_list in Hx.
  assert (Hbound : ∀ (l : list (Z * A)) k y, (k, y) ∈ l → k ≤ foldr Z.max 0 l.*1).
  { induction l as [|[k' y'] l IH]; intros k y Hin.
    - by apply not_elem_of_nil in Hin.
    - rewrite fmap_cons. cbn [foldr fst].
      apply elem_of_cons in Hin as [Heq|Hin].
      + inversion Heq; subst. lia.
      + specialize (IH _ _ Hin). lia. }
  specialize (Hbound _ _ _ Hx). unfold next_rowid in Hbound. lia.
Qed.

(** The admin gate runs the handler for an administrator and answers 403,
    without touching the store, for anyone else. *)
Lemma admin_required_gate f current_user s :
  admin_required f current_user s
  = if bool_decide (identity_is_admin <$> current_user = Some true)
    then f s
    else (s, (Message "Access denied, you are not an admin", 403)).
Proof.
  unfold admin_required. destruct current_user as [[uid [|]]|]; reflexivity.
Qed.

(** ** Deleting a showing *)

Lemma filter_by_movie_id_deleted rows i :
  filter_by_movie_id (delete_by_movie_id rows i) i = [].
Proof.
  unfold filter_by_movie_id, delete_by_movie_id.
  induction rows as [|r rows IH]; [done|].
  rewrite filter_cons. case_decide as Hr; [|done].
  rewrite filter_cons. by case_decide.
Qed.

Lemma filter_by_movie_id_kept rows i j :
  j ≠ i →
  filter_by_movie_id (delete_by_movie_id rows i) j = filter_by_movie_id rows j.
Proof.
  intros Hne. unfold filter_by_movie_id, delete_by_movie_id.
  induction rows as [|r rows IH]; [done|].
  rewrite !filter_cons. case_decide as Hr.
  - rewrite filter_cons. case_decide; by rewrite IH.
  - case_decide as Hj; [|done]. exfalso. apply Hne.
    rewrite Hj in Hr. by inversion Hr.
Qed.

(** C7: [delete_movie] answers 404 and leaves the store as it was when no
    showing has the key; otherwise it answers 200 and the store it commits
    has neither the showing nor any reservation that references it (their
    count is 0), while the other showings, the reservations of the other
    showings and the users are kept. *)
Theorem delete_movie_cascade s i :
  let '(s', r) := delete_movie s i in
  match movies s !! i with
  | None => r = (Message "Movie not found", 404) ∧ s' = s
  | Some _ =>
    r = (Message "Movie deleted successfully", 200)
    ∧ movies s' !! i = None
    ∧ live_reservations s' i = 0
    ∧ Forall (λ x, movie_id x ≠ Some i) (reservations s')
    ∧ (∀ j, j ≠ i → movies s' !! j = movies s !! j)
    ∧ (∀ j, j ≠ i → filter_by_movie_id (reservations s') j
                     = filter_by_movie_id (reservations s) j)
    ∧ users s' = users s
  end.
Proof.
  unfold delete_movie. destruct (movies s !! i) as [m|] eqn:Hm; [|done].
  simpl. repeat split.
  - apply lookup_delete_eq.
  - unfold live_reservations; simpl. by rewrite filter_by_movie_id_deleted.
  - unfold delete_by_movie_id. apply Forall_forall. intros x Hx.
    by apply list_elem_of_filter in Hx as [? ?].
  - intros j Hj. apply lookup_delete_ne. congruence.
  - intros j Hj. by apply filter_by_movie_id_kept.
Qed.

(** ** Creating a showing, and logging in *)

Lemma truthy_str_false v : truthy_str v = false ↔ missing_str v.
Proof.
  unfold missing_str. destruct v as [x|]; simpl.
  - rewrite negb_false_iff, String.eqb_eq. split.
    + intros ->. by right.
    + intros [?|?]; congruence.
  - split; [by left|done].
Qed.

Lemma truthy_int_false v : truthy_int v = false ↔ missing_int v.
Proof.
  unfold missing_int. destruct v as [n|]; simpl.
  - rewrite negb_false_iff, Z.eqb_eq. split.
    + intros ->. by right.
    + intros [?|?]; congruence.
  - split; [by left|done].
Qed.

Section handler_properties.

Variable new_movie_id : gmap Z Movie → Z.
Hypothesis new_movie_id_fresh : ∀ table, table !! new_movie_id table = None.
Variable check_password : User → option string → bool.
Variable create_access_token : Identity → string.

(** The outcomes of [add_showing_movie]. *)
Lemma add_showing_movie_cases s data :
  ((missing_str (req_title data) ∨ missing_str (req_room data)
    ∨ missing_int (req_seats data))
   ∧ add_showing_movie new_movie_id s data
     = (s, (Message "Title, room and seats are required", 400)))
  ∨ (∃ t r n, req_title data = Some t ∧ t ≠ "" ∧ req_room data = Some r
      ∧ r ≠ "" ∧ req_seats data = Some n ∧ n ≠ 0
      ∧ ((room_in_use s r
          ∧ add_showing_movie new_movie_id s data = (s, (Message "Room already in use", 400)))
         ∨ (¬ room_in_use s r
            ∧ add_showing_movie new_movie_id s data
              = (mkStore (users s)
                   (<[new_movie_id (movies s)
                      := mkMovie t (req_description data) r n]> (movies s))
                   (reservations s),
                 (Message "Movie added successfully", 201))))).
Proof.
  unfold add_showing_movie.
  destruct (truthy_str (req_title data)) eqn:Ht; simpl;
    [|left; split; [left; by apply truthy_str_false|done]].
  destruct (truthy_str (req_room data)) eqn:Hr; simpl;
    [|left; split; [right; left; by apply truthy_str_false|done]].
  destruct (truthy_int (req_seats data)) eqn:Hn; simpl;
    [|left; split; [right; right; by apply truthy_int_false|done]].
  right.
  destruct (req_title data) as [t|]; [|done].
  destruct (req_room data) as [r|]; [|done].
  destruct (req_seats data) as [n|]; [|done].
  simpl in Ht, Hr, Hn.
  apply negb_true_iff in Ht, Hr, Hn.
  apply String.eqb_neq in Ht, Hr. apply Z.eqb_neq in Hn.
  exists t, r, n. repeat split; try done.
  destruct (query_first (filter_by_room (movies s) r)) as [row|] eqn:Hq.
  - left. split; [by eapply filter_by_room_Some|done].
  - right. split; [by apply filter_by_room_None|done].
Qed.

(** C4, as the code has it: [add_showing_movie] answers 400 "Title, room
    and seats are required" and leaves the store as it was exactly when
    the title or the room is absent or empty, or seats is absent or 0.  A
    negative seats value is not a missing field. *)
Theorem add_showing_movie_required s data :
  add_showing_movie new_movie_id s data
    = (s, (Message "Title, room and seats are required", 400))
  ↔ missing_str (req_title data) ∨ missing_str (req_room data)
    ∨ missing_int (req_seats data).
Proof.
  destruct (add_showing_movie_cases s data)
    as [[Hmiss Heq]|(t & r & n & Ht & Htn & Hr & Hrn & Hn & Hnn & Hcase)].
  - by rewrite Heq.
  - split.
    + intros Heq. destruct Hcase as [[_ Heq']|[_ Heq']];
        rewrite Heq' in Heq; by inversion Heq.
    + unfold missing_str, missing_int. rewrite Ht, Hr, Hn.
      intros [[?|?]|[[?|?]|[?|?]]]; congruence.
Qed.

Lemma run_cons s op ops :
  run new_movie_id s (op :: ops) = run new_movie_id (step new_movie_id s op).1 ops.
Proof. reflexivity. Qed.

(** An induction principle for what holds after every sequence of operations. *)
Lemma run_invariant (P : Store → Prop) :
  (∀ s op, P s → P (step new_movie_id s op).1) →
  ∀ ops s, P s → P (run new_movie_id s ops).
Proof.
  intros Hstep ops. induction ops as [|op ops IH]; intros s Hs; [done|].
  rewrite run_cons. apply IH. by apply Hstep.
Qed.

Lemma unique_rooms_step s op :
  unique_rooms s → unique_rooms (step new_movie_id s op).1.
Proof.
  intros Hu. destruct op as [data|data|k]; simpl.
  - destruct (add_showing_movie_cases s data)
      as [[_ Heq]|(t & r & n & _ & _ & _ & _ & _ & _ & [[_ Heq]|[Hfree Heq]])];
      rewrite Heq; simpl; try done.
    intros i j mi mj. simpl. rewrite !lookup_insert.
    repeat case_decide; subst; intros Hi Hj Hr; simplify_eq; simpl in *.
    + done.
    + exfalso. apply Hfree. by exists j, mj.
    + exfalso. apply Hfree. by exists i, mi.
    + by eapply Hu.
  - destruct (create_reservation_cases s data)
      as [[_ Heq]|[(m & _ & _ & Heq)|(k & m & _ & Hm & _ & Heq)]];
      rewrite Heq; simpl; try done.
    intros i j mi mj. simpl. rewrite !lookup_insert.
    repeat case_decide; subst; intros Hi Hj Hr; simplify_eq; simpl in *;
      first [done | by eapply Hu].
  - unfold delete_movie. destruct (movies s !! k) as [m|] eqn:Hm; simpl; [|done].
    intros i j mi mj. simpl. rewrite !lookup_delete.
    repeat case_decide; subst; try done. by apply Hu.
Qed.

(** C6: for a request that carries a title, a room and a seats value,
    [add_showing_movie] answers 400 "Room already in use" and changes
    nothing when some showing occupies the room, and otherwise adds one
    showing, under a new key, whose seats are the requested seats.  An
    occupied room is refused with 400 whatever the other fields are.  So
    the showings keep a room each after every sequence of operations. *)
Theorem add_showing_movie_room s data t r n :
  req_title data = Some t → t ≠ "" →
  req_room data = Some r → r ≠ "" →
  req_seats data = Some n → n ≠ 0 →
  (room_in_use s r →
   add_showing_movie new_movie_id s data
     = (s, (Message "Room already in use", 400)))
  ∧ (¬ room_in_use s r →
     ∃ s' k,
       add_showing_movie new_movie_id s data
         = (s', (Message "Movie added successfully", 201))
       ∧ movies s !! k = None
       ∧ movies s' !! k = Some (mkMovie t (req_description data) r n)
       ∧ remaining_seats s' k = Some n
       ∧ (∀ j, j ≠ k → movies s' !! j = movies s !! j)
       ∧ reservations s' = reservations s
       ∧ users s' = users s)
  ∧ (∀ data' r', req_room data' = Some r' → room_in_use s r' →
       status (add_showing_movie new_movie_id s data').2 = 400
       ∧ (add_showing_movie new_movie_id s data').1 = s)
  ∧ (∀ s0 ops, unique_rooms s0 → unique_rooms (run new_movie_id s0 ops))
  ∧ (∀ us ops, unique_rooms (run new_movie_id (initial_store us) ops)).
Proof.
  intros Ht Htn Hr Hrn Hn Hnn.
  assert (Hinv : ∀ s0 ops, unique_rooms s0 → unique_rooms (run new_movie_id s0 ops)).
  { intros s0 ops. apply run_invariant. intros; by apply unique_rooms_step. }
  split; [|split; [|split; [|split]]].
  - intros Huse.
    destruct (add_showing_movie_cases s data)
      as [[Hmiss _]|(t' & r' & n' & Ht' & _ & Hr' & _ & Hn' & _ & Hcase)].
    + unfold missing_str, missing_int in Hmiss. rewrite Ht, Hr, Hn in Hmiss.
      destruct Hmiss as [[?|?]|[[?|?]|[?|?]]]; congruence.
    + assert (r' = r) by congruence. subst r'.
      by destruct Hcase as [[_ Heq]|[Hfree _]].
  - intros Hfree.
    destruct (add_showing_movie_cases s data)
      as [[Hmiss _]|(t' & r' & n' & Ht' & _ & Hr' & _ & Hn' & _ & Hcase)].
    + unfold missing_str, missing_int in Hmiss. rewrite Ht, Hr, Hn in Hmiss.
      destruct Hmiss as [[?|?]|[[?|?]|[?|?]]]; congruence.
    + assert (r' = r) by congruence. assert (t' = t) by congruence.
      assert (n' = n) by congruence. subst r' t' n'.
      destruct Hcase as [[Huse _]|[_ Heq]]; [done|].
      eexists _, (new_movie_id (movies s)). split; [exact Heq|]. simpl.
      repeat split.
      * apply new_movie_id_fresh.
      * apply lookup_insert_eq.
      * unfold remaining_seats; simpl. by rewrite lookup_insert_eq.
      * intros j Hj. apply lookup_insert_ne. congruence.
  - intros data' r' Hr' Huse.
    destruct (add_showing_movie_cases s data')
      as [[_ Heq]|(t2 & r2 & n2 & _ & _ & Hr2 & _ & _ & _ & Hcase)].
    + by rewrite Heq.
    + assert (r2 = r') by congruence. subst r2.
      destruct Hcase as [[_ Heq]|[Hfree _]]; [by rewrite Heq|done].
  - exact Hinv.
  - intros us ops. apply Hinv. intros i j mi mj Hi. simpl in Hi.
    by rewrite lookup_empty in Hi.
Qed.

(** C10: a login whose username matches no user and a login whose
    username matches a user whose password check fails get the same
    answer, 401 with one fixed message, and neither logs a user in. *)
Theorem login_failure_uniform s d1 d2 row :
  query_first (filter_by_username (users s) (login_username d1)) = None →
  query_first (filter_by_username (users s) (login_username d2)) = Some row →
  check_password row.2 (login_password d2) = false →
  login check_password create_access_token s d1
    = login check_password create_access_token s d2
  ∧ login check_password create_access_token s d1
    = ((Message "Credentials are incorrect. Please try again.", 401), None).
Proof.
  intros H1 H2 Hpw. unfold login. rewrite H1, H2.
  destruct row as [uid user]. simpl in Hpw. by rewrite Hpw.
Qed.

End handler_properties.

(** ** What holds after every sequence of operations *)

Lemma live_reservations_unreferenced s k :
  references_showing s → movies s !! k = None → live_reservations s k = 0.
Proof.
  intros Href Hk. unfold live_reservations, filter_by_movie_id.
  destruct (filter (λ r, movie_id r = Some k) (reservations s)) as [|r rows] eqn:Hf;
    [done|].
  assert (Hr : r ∈ filter (λ r, movie_id r = Some k) (reservations s))
    by (rewrite Hf; left).
  apply list_elem_of_filter in Hr as [Hid Hr].
  destruct (Href r Hr) as (i & Hi & [m Hm]).
  assert (i = k) by congruence. subst. congruence.
Qed.

Section ledger_properties.

Variable new_movie_id : gmap Z Movie → Z.
Hypothesis new_movie_id_fresh : ∀ table, table !! new_movie_id table = None.

Lemma store_ledger_step l op :
  store (ledger_step new_movie_id l op) = (step new_movie_id (store l) op).1.
Proof. unfold ledger_step. by destruct (step new_movie_id (store l) op). Qed.

Lemma store_ledger_run ops l :
  store (ledger_run new_movie_id l ops) = run new_movie_id (store l) ops.
Proof.
  revert l. induction ops as [|op ops IH]; intros l; [done|].
  simpl. rewrite IH, store_ledger_step. reflexivity.
Qed.

Lemma references_showing_step s op :
  references_showing s → references_showing (step new_movie_id s op).1.
Proof.
  intros Href. destruct op as [data|data|k]; simpl.
  - destruct (add_showing_movie_cases new_movie_id s data)
      as [[_ Heq]|(t & r & n & _ & _ & _ & _ & _ & _ & [[_ Heq]|[_ Heq]])];
      rewrite Heq; simpl; try done.
    intros x Hx. simpl in Hx. destruct (Href x Hx) as (i & Hi & [m Hm]).
    exists i. split; [done|]. simpl.
    rewrite lookup_insert. case_decide; eauto.
  - destruct (create_reservation_cases s data)
      as [[_ Heq]|[(m & _ & _ & Heq)|(k & m & _ & Hm & _ & Heq)]];
      rewrite Heq; simpl; try done.
    intros x Hx. simpl in Hx. apply elem_of_app in Hx as [Hx|Hx].
    + destruct (Href x Hx) as (i & Hi & [m' Hm']).
      exists i. split; [done|]. simpl.
      rewrite lookup_insert. case_decide; eauto.
    + apply list_elem_of_singleton in Hx. subst x. exists k. simpl.
      split; [done|]. rewrite lookup_insert_eq. eauto.
  - unfold delete_movie. destruct (movies s !! k) as [m|] eqn:Hm; simpl; [|done].
    intros x Hx. simpl in Hx. unfold delete_by_movie_id in Hx.
    apply list_elem_of_filter in Hx as [Hne Hx].
    destruct (Href x Hx) as (i & Hi & Hsome).
    exists i. split; [done|]. simpl. rewrite lookup_delete_ne; [done|].
    intros ->. by apply Hne.
Qed.

Lemma seats_accounted_step l op :
  references_showing (store l) → seats_accounted l →
  seats_accounted (ledger_step new_movie_id l op).
Proof.
  intros Href Hacc. destruct l as [s totals]. simpl in *.
  unfold ledger_step. simpl store. destruct op as [data|data|k]; simpl step.
  - destruct (add_showing_movie_cases new_movie_id s data)
      as [[_ Heq]|(t & r & n & _ & _ & _ & _ & Hn & _ & [[_ Heq]|[_ Heq]])];
      rewrite Heq; unfold status; simpl.
    + destruct (req_seats data); by simpl.
    + destruct (req_seats data); by simpl.
    + rewrite Hn. simpl. intros i m. simpl. rewrite !lookup_insert.
      case_decide as Hi.
      * intros Hm. simplify_eq. exists n. simpl.
        split; [done|]. split; [lia|]. split; [lia|].
        unfold live_reservations; simpl.
        pose proof (live_reservations_unreferenced s _ Href
                      (new_movie_id_fresh (movies s))) as H0.
        unfold live_reservations in H0. lia.
      * intros Hm. apply (Hacc i m Hm).
  - destruct (create_reservation_cases s data)
      as [[_ Heq]|[(m & _ & _ & Heq)|(k & m & Hk & Hm & Hpos & Heq)]];
      rewrite Heq; simpl; try done.
    intros i mi. simpl. rewrite lookup_insert. case_decide as Hi.
    + intros Hmi. simplify_eq.
      destruct (Hacc _ _ Hm) as (t & Ht & Hlo & Hhi & Hlive). simpl in *.
      exists t. split; [done|]. split; [lia|]. split; [lia|].
      erewrite (live_reservations_snoc s) by done. simpl.
      rewrite bool_decide_eq_true_2 by done. lia.
    + intros Hmi. destruct (Hacc _ _ Hmi) as (t & Ht & Hlo & Hhi & Hlive).
      simpl in *. exists t. repeat (split; [done|]).
      erewrite (live_reservations_snoc s) by done. simpl.
      rewrite bool_decide_eq_false_2; [lia|]. congruence.
  - unfold delete_movie. destruct (movies s !! k) as [m|] eqn:Hm; simpl; [|done].
    intros i mi. simpl. rewrite lookup_delete. case_decide as Hi; [done|].
    intros Hmi. destruct (Hacc _ _ Hmi) as (t & Ht & Hlo & Hhi & Hlive).
    simpl in *. exists t. rewrite lookup_delete_ne by done.
    repeat (split; [done|]).
    unfold live_reservations in *; simpl.
    rewrite filter_by_movie_id_kept; [done|congruence].
Qed.

Lemma ledger_run_invariant ops l :
  references_showing (store l) → seats_accounted l →
  references_showing (store (ledger_run new_movie_id l ops))
  ∧ seats_accounted (ledger_run new_movie_id l ops).
Proof.
  revert l. induction ops as [|op ops IH]; intros l Href Hacc; [done|].
  simpl. apply IH.
  - rewrite store_ledger_step. by apply references_showing_step.
  - by apply seats_accounted_step.
Qed.

(** C2, as the code has it: after every sequence of operations every
    showing has a recorded capacity [t] (the seats it was created with), its
    counter is at most [t], and the seats taken are exactly its live
    reservations.  When [t] is not negative the counter is not negative
    either and the live reservations do not exceed [t]. *)
Theorem seats_within_capacity us ops i m :
  movies (store (ledger_run new_movie_id (initial_ledger us) ops)) !! i = Some m →
  ∃ t,
    total_seats (ledger_run new_movie_id (initial_ledger us) ops) !! i = Some t
    ∧ seats m ≤ t
    ∧ live_reservations
        (store (ledger_run new_movie_id (initial_ledger us) ops)) i
      = t - seats m
    ∧ (0 ≤ t →
       0 ≤ seats m
       ∧ live_reservations
           (store (ledger_run new_movie_id (initial_ledger us) ops)) i ≤ t).
Proof.
  intros Hm.
  destruct (ledger_run_invariant ops (initial_ledger us)) as [_ Hacc].
  - intros r Hr. simpl in Hr. by apply not_elem_of_nil in Hr.
  - intros j mj Hj. simpl in Hj. by rewrite lookup_empty in Hj.
  - destruct (Hacc i m Hm) as (t & Ht & Hlo & Hhi & Hlive).
    exists t. repeat split; try done; lia.
Qed.

(** C9, as the code has it: after every sequence of operations every
    reservation row references a showing in the store.  A row is added
    only by a request whose showing exists, and it carries the request's
    user as given: no handler looks the user up. *)
Theorem reservations_reference_showings us ops r :
  r ∈ reservations (run new_movie_id (initial_store us) ops) →
  (∃ i, movie_id r = Some i
      ∧ is_Some (movies (run new_movie_id (initial_store us) ops) !! i))
  ∧ (∀ s data,
       (create_reservation s data).1 ≠ s →
       ∃ i m, req_movie_id data = Some i ∧ movies s !! i = Some m
         ∧ reservations (create_reservation s data).1
           = reservations s
             ++ [mkReservation (Some i) (req_user_id data) (room m)]).
Proof.
  intros Hr. split.
  - revert r Hr.
    apply (run_invariant new_movie_id references_showing).
    + intros s op. apply references_showing_step.
    + intros r Hr. simpl in Hr. by apply not_elem_of_nil in Hr.
  - intros s data Hne.
    destruct (create_reservation_cases s data)
      as [[_ Heq]|[(m & _ & _ & Heq)|(k & m & Hk & Hm & _ & Heq)]];
      rewrite Heq in *; simpl in *; try done.
    by exists k, m.
Qed.

End ledger_properties.

(** ** Counting the successful attempts *)

Lemma attempt_all_seats reqs : ∀ s i m,
  movies s !! i = Some m →
  remaining_seats (attempt_all s reqs) i = Some (seats m - successes i s reqs)
  ∧ Z.min 0 (seats m) ≤ seats m - successes i s reqs
  ∧ 0 ≤ successes i s reqs.
Proof.
  induction reqs as [|data reqs IH]; intros s i m Hm.
  - simpl. unfold remaining_seats. rewrite Hm. simpl.
    split; [f_equal; lia|lia].
  - simpl.
    destruct (create_reservation_cases s data)
      as [[_ Heq]|[(m' & _ & _ & Heq)|(k & m' & Hk & Hm' & Hpos & Heq)]];
      rewrite Heq; simpl.
    + rewrite bool_decide_eq_false_2 by (unfold status; simpl; intros [_ ?]; done).
      destruct (IH s i m Hm) as (H1 & H2 & H3). split; [|lia].
      rewrite H1. f_equal; lia.
    + rewrite bool_decide_eq_false_2 by (unfold status; simpl; intros [_ ?]; done).
      destruct (IH s i m Hm) as (H1 & H2 & H3). split; [|lia].
      rewrite H1. f_equal; lia.
    + destruct (decide (k = i)) as [->|Hne].
      * assert (m' = m) by congruence. subst m'.
        rewrite bool_decide_eq_true_2 by (by rewrite Hk).
        edestruct (IH (mkStore (users s)
                         (<[i := with_seats m (seats m - 1)]> (movies s))
                         (reservations s
                            ++ [mkReservation (Some i) (req_user_id data) (room m)]))
                      i (with_seats m (seats m - 1))) as (H1 & H2 & H3).
        { simpl. apply lookup_insert_eq. }
        simpl in H1, H2. split; [|lia]. rewrite H1. f_equal; lia.
      * rewrite bool_decide_eq_false_2
          by (rewrite Hk; intros [? _]; congruence).
        edestruct (IH (mkStore (users s)
                         (<[k := with_seats m' (seats m' - 1)]> (movies s))
                         (reservations s
                            ++ [mkReservation (Some k) (req_user_id data) (room m')]))
                      i m) as (H1 & H2 & H3).
        { simpl. by rewrite lookup_insert_ne. }
        split; [|lia]. rewrite H1. f_equal; lia.
Qed.

Section capacity.

Variable new_movie_id : gmap Z Movie → Z.

(** C8: take a showing as [add_showing_movie] created it, with [total]
    seats, and any sequence of reservation attempts made one after the
    other.  If [N] of the attempts against the showing succeeded, its
    counter is [total - N]; when [total] is not negative [N] never
    exceeds it; and once [N = total], an attempt against the showing is
    answered 400 and changes nothing. *)
Theorem seats_after_successes s data s0 total reqs :
  add_showing_movie new_movie_id s data
    = (s0, (Message "Movie added successfully", 201)) →
  req_seats data = Some total →
  remaining_seats (attempt_all s0 reqs) (new_movie_id (movies s))
    = Some (total - successes (new_movie_id (movies s)) s0 reqs)
  ∧ (0 ≤ total → successes (new_movie_id (movies s)) s0 reqs ≤ total)
  ∧ (successes (new_movie_id (movies s)) s0 reqs = total →
     ∀ data',
       req_movie_id data' = Some (new_movie_id (movies s)) →
       create_reservation (attempt_all s0 reqs) data'
         = (attempt_all s0 reqs,
            (Message "Don't have available seats to this movie", 400))).
Proof.
  intros Hadd Hseats.
  destruct (add_showing_movie_cases new_movie_id s data)
    as [[_ Heq]|(t & r & n & _ & _ & _ & _ & Hn & _ & [[_ Heq]|[_ Heq]])];
    rewrite Heq in Hadd; try (by inversion Hadd).
  assert (n = total) by congruence. subst n.
  injection Hadd as <-.
  set (i := new_movie_id (movies s)).
  set (s0 := mkStore _ _ _).
  destruct (attempt_all_seats reqs s0 i (mkMovie t (req_description data) r total))
    as (Hrem & Hlo & Hnon).
  { simpl. apply lookup_insert_eq. }
  simpl in Hrem, Hlo. split; [exact Hrem|]. split; [lia|].
  intros HN data' Hid.
  unfold remaining_seats in Hrem.
  destruct (movies (attempt_all s0 reqs) !! i) as [m|] eqn:Hm; [|done].
  simpl in Hrem. injection Hrem as Hrem.
  destruct (create_reservation_cases (attempt_all s0 reqs) data')
    as [[Hq _]|[(m' & _ & _ & Heq')|(k & m' & Hk & Hm' & Hpos & _)]].
  - unfold query_get in Hq. rewrite Hid, Hm in Hq. done.
  - exact Heq'.
  - assert (k = i) by congruence. subst k.
    assert (m' = m) by congruence. subst m'. lia.
Qed.

End capacity.

(** ** Two requests in flight *)

(** A request served without another one in between does what
    [create_reservation] does. *)
Lemma task_step_alone s data :
  let '(s1, t1) := task_step s (Received data) in
  let '(s2, t2) := task_step s1 t1 in
  (s2, t2) = ((create_reservation s data).1,
              Returned (create_reservation s data).2).
Proof.
  unfold create_reservation. cbn -[query_get update_row commit_reservation].
  destruct (query_get (movies s) (req_movie_id data)) as [movie|] eqn:Hq;
    cbn -[query_get update_row commit_reservation]; [|done].
  destruct (seats movie <=? 0)%Z; [done|].
  unfold commit_reservation. rewrite Hq. reflexivity.
Qed.

(** Two requests for the last seat of a showing, the second loading the
    row before the first commits: both are answered 201 and the showing
    gains two reservations for its one seat. *)
Lemma overlapping_attempts_overbook s i movie d1 d2 :
  movies s !! i = Some movie → seats movie = 1 →
  req_movie_id d1 = Some i → req_movie_id d2 = Some i →
  ∃ s',
    interleave s (Received d1) (Received d2) [false; true; false; true]
    = (s', Returned (Message "Reservation created successfully", 201),
           Returned (Message "Reservation created successfully", 201))
    ∧ remaining_seats s' i = Some 0
    ∧ live_reservations s' i = live_reservations s i + 2.
Proof.
  intros Hm Hone H1 H2. eexists. split.
  - cbn -[Z.sub]. unfold commit_reservation, query_get, update_row.
    rewrite H1, H2, Hm. cbn -[Z.sub]. rewrite Hone. cbn -[Z.sub].
    rewrite lookup_insert_eq. reflexivity.
  - split.
    + unfold remaining_seats. cbn. by rewrite lookup_insert_eq.
    + rewrite (live_reservations_snoc
                 (mkStore (users s) (movies s)
                    (reservations s
                       ++ [mkReservation (Some i) (req_user_id d1)
                             (room movie)]))
                 _ (mkReservation (Some i) (req_user_id d2)
                      (room movie))) by reflexivity.
      rewrite (live_reservations_snoc s _
                 (mkReservation (Some i) (req_user_id d1)
                    (room movie))) by reflexivity.
      cbn. rewrite !bool_decide_eq_true_2 by done. lia.
Qed.

(** The same two requests served one after the other: the first takes the
    seat and the second is answered 400. *)
Lemma serial_attempts_last_seat s i movie d1 d2 :
  movies s !! i = Some movie → seats movie = 1 →
  req_movie_id d1 = Some i → req_movie_id d2 = Some i →
  ∃ s',
    interleave s (Received d1) (Received d2) [false; false; true; true]
    = (s', Returned (Message "Reservation created successfully", 201),
           Returned (Message "Don't have available seats to this movie", 400))
    ∧ remaining_seats s' i = Some 0
    ∧ live_reservations s' i = live_reservations s i + 1.
Proof.
  intros Hm Hone H1 H2. eexists. split.
  - cbn -[Z.sub]. unfold commit_reservation, query_get, update_row.
    rewrite H1, H2, Hm. cbn -[Z.sub]. rewrite Hone. cbn -[Z.sub].
    rewrite lookup_insert_eq. cbn. reflexivity.
  - split.
    + unfold remaining_seats. cbn. by rewrite lookup_insert_eq.
    + rewrite (live_reservations_snoc s _
                 (mkReservation (Some i) (req_user_id d1)
                    (room movie))) by reflexivity.
      cbn. rewrite bool_decide_eq_true_2 by done. lia.
Qed.

(** Served one after the other, exactly one of the two requests for the
    last seat succeeds and the other is answered 400. *)
Lemma serial_attempts_one_succeeds :
  interleave one_seat_store (Received first_request) (Received second_request)
    [false; false; true; true]
  = (mkStore ∅ {[ 1 := mkMovie "Alien" None "A" 0 ]}
       [mkReservation (Some 1) (Some 1) "A"],
     Returned (Message "Reservation created successfully", 201),
     Returned (Message "Don't have available seats to this movie", 400)).
Proof. reflexivity. Qed.

(** C5 fails on the code: when both requests load the showing before
    either commits, both see one seat, both are answered 201, the counter
    ends at 0 and the showing with one seat has two reservations. *)
Theorem interleaved_attempts_both_succeed :
  interleave one_seat_store (Received first_request) (Received second_request)
    [false; true; false; true]
  = (mkStore ∅ {[ 1 := mkMovie "Alien" None "A" 0 ]}
       [mkReservation (Some 1) (Some 1) "A";
        mkReservation (Some 1) (Some 2) "A"],
     Returned (Message "Reservation created successfully", 201),
     Returned (Message "Reservation created successfully", 201)).
Proof. reflexivity. Qed.

(** ** Concrete runs *)

Lemma seats_within_capacity_witness :
  ∃ t, total_seats
         (ledger_run next_rowid (initial_ledger admin_only)
            [CreateShowing (alien_request 2);
             AttemptReservation first_request]) !! 1 = Some t
     ∧ 1 ≤ t.
Proof.
  destruct (seats_within_capacity next_rowid (@next_rowid_fresh Movie)
              admin_only
              [CreateShowing (alien_request 2); AttemptReservation first_request]
              1 (mkMovie "Alien" None "A" 1)) as (t & Ht & Hle & _).
  - reflexivity.
  - exists t. split; [exact Ht | exact Hle].
Defined.

(** C2 fails on the code: a showing created with seats = -1 has a
    counter below 0, and its reservations (none) exceed its capacity. *)
Lemma negative_seats_break_bounds :
  ∃ m t,
    movies (store (ledger_run next_rowid (initial_ledger admin_only)
                     [CreateShowing (alien_request (-1))])) !! 1 = Some m
    ∧ total_seats (ledger_run next_rowid (initial_ledger admin_only)
                     [CreateShowing (alien_request (-1))]) !! 1 = Some t
    ∧ ¬ (0 ≤ seats m ∧ seats m ≤ t
         ∧ live_reservations
             (store (ledger_run next_rowid (initial_ledger admin_only)
                       [CreateShowing (alien_request (-1))])) 1 ≤ t).
Proof.
  exists (mkMovie "Alien" None "A" (-1)), (-1).
  split; [reflexivity|]. split; [reflexivity|].
  simpl. intros (H0 & _). lia.
Qed.

(** C4 fails on the code: seats = -1 is not refused; the showing is
    created with that counter. *)
Lemma negative_seats_accepted :
  ∃ n, req_seats (alien_request (-1)) = Some n ∧ n ≤ 0
     ∧ add_showing_movie next_rowid (initial_store admin_only)
         (alien_request (-1))
       = (mkStore admin_only {[ 1 := mkMovie "Alien" None "A" (-1) ]} [],
          (Message "Movie added successfully", 201)).
Proof. exists (-1). split; [reflexivity|]. split; [lia|reflexivity]. Qed.

Lemma add_showing_movie_room_witness :
  ∃ s' k,
    add_showing_movie next_rowid (initial_store admin_only) (alien_request 2)
      = (s', (Message "Movie added successfully", 201))
    ∧ remaining_seats s' k = Some 2.
Proof.
  destruct (add_showing_movie_room next_rowid (@next_rowid_fresh Movie)
              (initial_store admin_only) (alien_request 2) "Alien" "A" 2)
    as (_ & Hfree & _); try done.
  destruct Hfree as (s' & k & Heq & _ & _ & Hrem & _).
  - intros (i & m & Hm & _). simpl in Hm. by rewrite lookup_empty in Hm.
  - exists s', k. split; [exact Heq | exact Hrem].
Defined.

Lemma seats_after_successes_witness :
  remaining_seats
    (attempt_all
       (add_showing_movie next_rowid (initial_store admin_only)
          (alien_request 1)).1
       [first_request; second_request]) 1
  = Some 0.
Proof.
  destruct (seats_after_successes next_rowid (initial_store admin_only)
              (alien_request 1)
              (add_showing_movie next_rowid (initial_store admin_only)
                 (alien_request 1)).1
              1 [first_request; second_request]) as (Hrem & _).
  - reflexivity.
  - reflexivity.
  - exact Hrem.
Defined.

Lemma reservations_reference_showings_witness :
  ∃ i, movie_id (mkReservation (Some 1) (Some 1) "A") = Some i
     ∧ is_Some (movies (run next_rowid (initial_store admin_only)
                          [CreateShowing (alien_request 2);
                           AttemptReservation first_request]) !! i).
Proof.
  destruct (reservations_reference_showings next_rowid admin_only
              [CreateShowing (alien_request 2); AttemptReservation first_request]
              (mkReservation (Some 1) (Some 1) "A")) as [H _].
  - apply list_elem_of_singleton. reflexivity.
  - exact H.
Defined.

(** C9 fails on the code: with the administrator as the only user, a
    request for user 99 is answered by a reservation row for user 99. *)
Lemma reservation_for_unknown_user :
  ∃ r,
    r ∈ reservations (run next_rowid (initial_store admin_only)
                        [CreateShowing (alien_request 2);
                         AttemptReservation
                           (mkReservationRequest (Some 1) (Some 99))])
    ∧ user_id r = Some 99
    ∧ users (run next_rowid (initial_store admin_only)
               [CreateShowing (alien_request 2);
                AttemptReservation
                  (mkReservationRequest (Some 1) (Some 99))]) !! 99 = None.
Proof.
  exists (mkReservation (Some 1) (Some 99) "A").
  split; [apply list_elem_of_singleton; reflexivity|].
  split; reflexivity.
Qed.

Lemma login_failure_uniform_witness :
  login check_plain token_of (initial_store admin_only)
    (mkLoginRequest (Some "nobody") (Some "hash"))
  = login check_plain token_of (initial_store admin_only)
      (mkLoginRequest (Some "admin") (Some "wrong")).
Proof.
  destruct (login_failure_uniform check_plain token_of
              (initial_store admin_only)
              (mkLoginRequest (Some "nobody") (Some "hash"))
              (mkLoginRequest (Some "admin") (Some "wrong"))
              (1, mkUser "admin" "hash" true)) as [H _].
  - reflexivity.
  - reflexivity.
  - reflexivity.
  - exact H.
Defined.

(** * The other routes *)

(** ** Accounts *)

Lemma query_first_filter_unique {A} (P : A → Prop) `{∀ x, Decision (P x)}
    (rows : list A) x :
  x ∈ rows → P x → (∀ y, y ∈ rows → P y → y = x) →
  query_first (filter P rows) = Some x.
Proof.
  intros Hx HP Huniq. unfold query_first.
  destruct (filter P rows) as [|y l] eqn:Hf.
  - assert (Hin : x ∈ filter P rows) by (by apply list_elem_of_filter).
    rewrite Hf in Hin. by apply not_elem_of_nil in Hin.
  - simpl. f_equal.
    assert (Hin : y ∈ filter P rows) by (rewrite Hf; left).
    apply list_elem_of_filter in Hin as [HPy Hy]. by apply Huniq.
Qed.

(** With unique usernames, the query by username finds the user's own row. *)
Lemma filter_by_username_unique s i u :
  unique_usernames s → users s !! i = Some u →
  query_first (filter_by_username (users s) (Some (username u))) = Some (i, u).
Proof.
  intros Huniq Hu. unfold filter_by_username.
  apply query_first_filter_unique.
  - by apply elem_of_map_to_list.
  - done.
  - intros [j uj] Hin Hname. apply elem_of_map_to_list in Hin.
    simpl in Hname. injection Hname as Hname.
    assert (j = i) by (by eapply Huniq). subst j.
    by assert (uj = u) by congruence; subst.
Qed.

Section account_properties.

Variable new_user_id : gmap Z User → Z.
Variable blank_user : User.
Variable set_password : User → string → User.
Variable check_password : User → option string → bool.
Variable create_access_token : Identity → string.

(** What the properties ask of the credential methods of the model class. *)
Hypothesis set_password_username :
  ∀ u p, username (set_password u p) = username u.
Hypothesis check_password_set :
  ∀ u p, check_password (set_password u p) (Some p) = true.

(** The outcomes of [create_user]. *)
Lemma create_user_cases s data :
  ((missing_str (new_username data) ∨ missing_str (new_user_password data))
   ∧ create_user new_user_id blank_user set_password s data
     = (s, (Message "User and password are required", 400)))
  ∨ (∃ n p, new_username data = Some n ∧ n ≠ ""
      ∧ new_user_password data = Some p ∧ p ≠ ""
      ∧ (((∃ i u, users s !! i = Some u ∧ username u = n)
          ∧ create_user new_user_id blank_user set_password s data
            = (s, (Message "The user already exists", 409)))
         ∨ ((∀ i u, users s !! i = Some u → username u ≠ n)
            ∧ create_user new_user_id blank_user set_password s data
              = (mkStore (<[new_user_id (users s)
                            := set_password (new_user blank_user n) p]> (users s))
                   (movies s) (reservations s),
                 (Message "User created successfully", 201))))).
Proof.
  unfold create_user.
  destruct (truthy_str (new_username data)) eqn:Hn; simpl;
    [|left; split; [left; by apply truthy_str_false|done]].
  destruct (truthy_str (new_user_password data)) eqn:Hp; simpl;
    [|left; split; [right; by apply truthy_str_false|done]].
  right.
  destruct (new_username data) as [n|]; [|done].
  destruct (new_user_password data) as [p|]; [|done].
  simpl in Hn, Hp. apply negb_true_iff in Hn, Hp.
  apply String.eqb_neq in Hn, Hp.
  exists n, p. repeat split; try done.
  destruct (query_first (filter_by_username (users s) (Some n)))
    as [[i u]|] eqn:Hq.
  - left. split; [|done]. apply filter_by_username_Some in Hq as [Hu Hname].
    exists i, u. split; [done|congruence].
  - right. split; [|done]. intros i u Hu Hname.
    apply (proj1 (filter_by_username_None s (Some n)) Hq i u Hu). congruence.
Qed.

(** X1: [create_user] answers 400 exactly when the username or the password
    is absent or empty, 409 exactly when both are given and some user has
    the username, and 201 otherwise.  Only a 201 changes the store: it
    adds one user row with the requested username and touches neither the
    showings nor the reservations. *)
Theorem create_user_outcome s data :
  let '(s', r) := create_user new_user_id blank_user set_password s data in
  (status r = 400
   ↔ missing_str (new_username data) ∨ missing_str (new_user_password data))
  ∧ (status r = 409
     ↔ ¬ missing_str (new_username data)
       ∧ ¬ missing_str (new_user_password data)
       ∧ ∃ i u, users s !! i = Some u ∧ Some (username u) = new_username data)
  ∧ (status r = 400 ∨ status r = 409 ∨ status r = 201)
  ∧ (status r ≠ 201 → s' = s)
  ∧ (status r = 201 →
     ∃ n p, new_username data = Some n ∧ new_user_password data = Some p
       ∧ users s' = <[new_user_id (users s)
                      := set_password (new_user blank_user n) p]> (users s)
       ∧ username (set_password (new_user blank_user n) p) = n
       ∧ movies s' = movies s ∧ reservations s' = reservations s).
Proof.
  destruct (create_user_cases s data)
    as [[Hmiss Heq]|(n & p & Hn & Hnn & Hp & Hpn & [[Hex Heq]|[Hfree Heq]])];
    rewrite Heq; unfold status; simpl.
  - repeat split; try done; try (by left).
    intros (Hu & Hpw & _). tauto.
  - assert (Hnm : ¬ missing_str (new_username data))
      by (unfold missing_str; rewrite Hn; intros [?|?]; congruence).
    assert (Hpm : ¬ missing_str (new_user_password data))
      by (unfold missing_str; rewrite Hp; intros [?|?]; congruence).
    repeat split; try done; try tauto; try (right; by left).
    destruct Hex as (i & u & Hu & Hname). exists i, u.
    split; [done|]. by rewrite Hn, Hname.
  - assert (Hnm : ¬ missing_str (new_username data))
      by (unfold missing_str; rewrite Hn; intros [?|?]; congruence).
    assert (Hpm : ¬ missing_str (new_user_password data))
      by (unfold missing_str; rewrite Hp; intros [?|?]; congruence).
    repeat split; try done; try tauto; try (right; by right).
    + intros (_ & _ & i & u & Hu & Hname). exfalso.
      apply (Hfree i u Hu). rewrite Hn in Hname. congruence.
    + intros _. exists n, p. repeat split; try done.
Qed.

(** X2: [reset_password] answers 404 exactly when no user has the key and
    400 exactly when the user exists and the body has no new password.
    Otherwise it answers 200, for any caller and any string, the empty one
    included, and rewrites the credential of that one row: the other
    users, the showings and the reservations are as before. *)
Theorem reset_password_outcome s uid data :
  let '(s', r) := reset_password set_password s uid data in
  (status r = 404 ↔ users s !! uid = None)
  ∧ (status r = 400 ↔ is_Some (users s !! uid) ∧ new_password data = None)
  ∧ (status r = 200 ↔ is_Some (users s !! uid) ∧ is_Some (new_password data))
  ∧ (status r ≠ 200 → s' = s)
  ∧ (status r = 200 →
     ∃ u p, users s !! uid = Some u ∧ new_password data = Some p
       ∧ users s' !! uid = Some (set_password u p)
       ∧ (∀ j, j ≠ uid → users s' !! j = users s !! j)
       ∧ movies s' = movies s ∧ reservations s' = reservations s).
Proof.
  unfold reset_password.
  destruct (users s !! uid) as [u|] eqn:Hu;
    [destruct (new_password data) as [p|] eqn:Hp|]; unfold status; simpl.
  - split; [done|]. split; [split; [done|by intros [_ ?]]|].
    split; [split; [eauto|done]|]. split; [done|].
    intros _. exists u, p. split; [done|]. split; [done|].
    split; [apply lookup_insert_eq|]. split; [|done].
    intros j Hj. apply lookup_insert_ne. congruence.
  - split; [done|]. split; [split; [eauto|done]|].
    split; [split; [done|by intros [_ [? ?]]]|]. by split.
  - split; [done|]. split; [split; [done|by intros [[? ?] _]]|].
    split; [split; [done|by intros [[? ?] _]]|]. by split.
Qed.

(** X3: what [login] answers with 200 is the key and the admin flag of a
    stored user with the requested username whose password check passed;
    the token is made from these two, and that user is the one logged in.
    Any other answer is the 401. *)
Theorem login_sound s data :
  (status (login check_password create_access_token s data).1 = 200 →
   ∃ uid u, users s !! uid = Some u
     ∧ Some (username u) = login_username data
     ∧ check_password u (login_password data) = true
     ∧ login check_password create_access_token s data
       = ((LoginBody "Login successful"
             (create_access_token (mkIdentity uid (is_admin u)))
             uid (is_admin u), 200), Some uid))
  ∧ (status (login check_password create_access_token s data).1 ≠ 200 →
     login check_password create_access_token s data
     = ((Message "Credentials are incorrect. Please try again.", 401), None)).
Proof.
  unfold login, status.
  destruct (query_first (filter_by_username (users s) (login_username data)))
    as [[uid u]|] eqn:Hq; [|by split].
  apply filter_by_username_Some in Hq as [Hu Hname].
  destruct (check_password u (login_password data)) eqn:Hc; simpl.
  - split; [|done]. intros _. by exists uid, u.
  - by split.
Qed.

(** X4: a user that [create_user] has just created can log in with the same
    username and password, and is answered with the key of the new row. *)
Theorem create_user_then_login s data s' :
  create_user new_user_id blank_user set_password s data
    = (s', (Message "User created successfully", 201)) →
  ∃ u, users s' !! new_user_id (users s) = Some u
    ∧ Some (username u) = new_username data
    ∧ login check_password create_access_token s'
        (mkLoginRequest (new_username data) (new_user_password data))
      = ((LoginBody "Login successful"
            (create_access_token
               (mkIdentity (new_user_id (users s)) (is_admin u)))
            (new_user_id (users s)) (is_admin u), 200),
         Some (new_user_id (users s))).
Proof.
  intros Hcreate.
  destruct (create_user_cases s data)
    as [[_ Heq]|(n & p & Hn & _ & Hp & _ & [[_ Heq]|[Hfree Heq]])];
    rewrite Heq in Hcreate; try (by inversion Hcreate).
  injection Hcreate as <-.
  set (k := new_user_id (users s)).
  set (row := set_password (new_user blank_user n) p).
  exists row. simpl. rewrite lookup_insert_eq.
  assert (Hname : username row = n)
    by (unfold row; by rewrite set_password_username).
  split; [done|]. split; [by rewrite Hn, Hname|].
  unfold login. simpl. rewrite Hn, Hp.
  assert (Hq : query_first (filter_by_username (<[k := row]> (users s)) (Some n))
               = Some (k, row)).
  { unfold filter_by_username. apply query_first_filter_unique.
    - apply elem_of_map_to_list, lookup_insert_eq.
    - simpl. by rewrite Hname.
    - intros [j uj] Hin Hj. apply elem_of_map_to_list in Hin.
      simpl in Hj. injection Hj as Hj.
      rewrite lookup_insert in Hin. case_decide as Hk.
      + injection Hin as <-. by rewrite <- Hk.
      + exfalso. by apply (Hfree j uj). }
  rewrite Hq. unfold row at 1. by rewrite check_password_set.
Qed.

(** X5: after [reset_password] has answered 200 for a user, that user's
    username with the new password logs in as that user, with the admin
    flag of the rewritten row. *)
Theorem reset_password_then_login s uid u p s' :
  unique_usernames s →
  users s !! uid = Some u →
  reset_password set_password s uid (mkResetRequest (Some p))
    = (s', (Message "Password reset successfully", 200)) →
  login check_password create_access_token s'
    (mkLoginRequest (Some (username u)) (Some p))
  = ((LoginBody "Login successful"
        (create_access_token (mkIdentity uid (is_admin (set_password u p))))
        uid (is_admin (set_password u p)), 200),
     Some uid).
Proof.
  intros Huniq Hu Hreset. unfold reset_password in Hreset.
  rewrite Hu in Hreset. simpl in Hreset. injection Hreset as <-.
  unfold login. simpl.
  assert (Hq : query_first
                 (filter_by_username (<[uid := set_password u p]> (users s))
                    (Some (username u)))
               = Some (uid, set_password u p)).
  { unfold filter_by_username. apply query_first_filter_unique.
    - apply elem_of_map_to_list, lookup_insert_eq.
    - simpl. by rewrite set_password_username.
    - intros [j uj] Hin Hj. apply elem_of_map_to_list in Hin.
      simpl in Hj. injection Hj as Hj.
      rewrite lookup_insert in Hin. case_decide as Hk.
      + by simplify_eq.
      + assert (j = uid) by (by eapply Huniq). congruence. }
  rewrite Hq. by rewrite check_password_set.
Qed.

End account_properties.

(** ** Start-up *)

Lemma filter_by_is_admin_None s :
  query_first (filter_by_is_admin (users s) true) = None ↔ ¬ has_admin s.
Proof.
  unfold filter_by_is_admin. rewrite query_first_filter_None. split.
  - intros Hall (i & u & Hu & Ha).
    apply (Hall (i, u)); [by apply elem_of_map_to_list|done].
  - intros Hno [i u] Hin Ha. apply elem_of_map_to_list in Hin.
    apply Hno. by exists i, u.
Qed.

Section start_up.

Variable new_user_id : gmap Z User → Z.
Hypothesis new_user_id_fresh : ∀ table, table !! new_user_id table = None.
Variable blank_user : User.
Variable set_password : User → string → User.

Lemma create_default_admin_has_admin s :
  has_admin (create_default_admin new_user_id blank_user set_password s).
Proof.
  unfold create_default_admin. eexists (new_user_id (users s)), _. simpl.
  split; [apply lookup_insert_eq|done].
Qed.

(** X6: the start-up block leaves a store with an administrator.  It changes
    nothing when there is one already, so running it again is without
    effect; when it adds the default administrator it keeps every user
    there was, and it never touches showings or reservations. *)
Theorem create_app_admin s :
  has_admin (create_app new_user_id blank_user set_password s)
  ∧ (has_admin s → create_app new_user_id blank_user set_password s = s)
  ∧ create_app new_user_id blank_user set_password
      (create_app new_user_id blank_user set_password s)
    = create_app new_user_id blank_user set_password s
  ∧ (∀ j u, users s !! j = Some u →
       users (create_app new_user_id blank_user set_password s) !! j = Some u)
  ∧ movies (create_app new_user_id blank_user set_password s) = movies s
  ∧ reservations (create_app new_user_id blank_user set_password s)
    = reservations s.
Proof.
  assert (Hkeep : ∀ s0, has_admin s0 →
            create_app new_user_id blank_user set_password s0 = s0).
  { intros s0 Hadm. unfold create_app.
    destruct (query_first (filter_by_is_admin (users s0) true)) eqn:Hq; [done|].
    by apply filter_by_is_admin_None in Hq. }
  assert (Hadm : has_admin (create_app new_user_id blank_user set_password s)).
  { unfold create_app.
    destruct (query_first (filter_by_is_admin (users s) true)) as [[i u]|] eqn:Hq.
    - apply query_first_filter_Some in Hq as [Hin Ha].
      apply elem_of_map_to_list in Hin. by exists i, u.
    - apply create_default_admin_has_admin. }
  split; [done|]. split; [apply Hkeep|]. split; [by apply Hkeep|].
  unfold create_app.
  destruct (query_first (filter_by_is_admin (users s) true)); [done|].
  simpl. split; [|done]. intros j u Hu.
  rewrite lookup_insert_ne; [done|].
  intros <-. by rewrite new_user_id_fresh in Hu.
Qed.

End start_up.

(** ** Reading the showings *)

(** X7: [get_movies] always answers 200.  With no showing the body is the
    message; otherwise it is a list with one entry per showing, no key
    twice, each entry holding the key and the current columns of its row. *)
Theorem get_movies_listing s :
  status_of_read (get_movies s) = 200
  ∧ match (get_movies s).1 with
    | ReadMessage msg => msg = "No movies found." ∧ movies s = ∅
    | MovieList l =>
      movies s ≠ ∅
      ∧ NoDup (entry_id <$> l)
      ∧ length l = size (movies s)
      ∧ ∀ e, e ∈ l
          ↔ movies s !! entry_id e
            = Some (mkMovie (entry_Title e) (entry_Description e)
                      (entry_Room e) (entry_Seats e))
    | MovieDetail _ _ _ => False
    end.
Proof.
  unfold get_movies, status_of_read.
  destruct (map_to_list (movies s)) as [|row rows] eqn:Hl;
    cbv beta iota zeta; cbn [fst snd].
  - split; [done|]. split; [done|]. by apply map_to_list_empty_iff.
  - split; [done|]. rewrite <- Hl.
    split; [|split; [|split]].
    + intros Hempty. rewrite Hempty, map_to_list_empty in Hl. done.
    + rewrite <- list_fmap_compose.
      replace (entry_id ∘ movie_entry) with (@fst Z Movie) by done.
      apply NoDup_fst_map_to_list.
    + by rewrite length_fmap, length_map_to_list.
    + intros e. rewrite list_elem_of_fmap. split.
      * intros ([i m] & -> & Hin). apply elem_of_map_to_list in Hin.
        simpl. by destruct m.
      * intros Hm. eexists (entry_id e, _). split; [|by apply elem_of_map_to_list].
        by destruct e.
Qed.


(** X9: a reservation attempt never changes what [get_movie] answers, for
    any key: the detail holds no seat count. *)
Theorem get_movie_ignores_reservations s data i :
  get_movie (create_reservation s data).1 i = get_movie s i.
Proof.
  destruct (create_reservation_cases s data)
    as [[_ Heq]|[(m & _ & _ & Heq)|(k & m & _ & Hm & _ & Heq)]];
    rewrite Heq; simpl; try done.
  unfold get_movie. simpl. rewrite lookup_insert. case_decide; [|done].
  subst. by rewrite Hm.
Qed.

(** X10: a created showing can be read back: [get_movie] answers with its key,
    title and description as sent, and [get_movies] lists it with the
    seats and the room as sent. *)
Theorem created_movie_is_listed new_movie_id s data s' :
  add_showing_movie new_movie_id s data
    = (s', (Message "Movie added successfully", 201)) →
  ∃ t r n l,
    req_title data = Some t ∧ req_room data = Some r ∧ req_seats data = Some n
    ∧ get_movie s' (new_movie_id (movies s))
      = (MovieDetail (new_movie_id (movies s)) t (req_description data), 200)
    ∧ get_movies s' = (MovieList l, 200)
    ∧ mkMovieEntry (new_movie_id (movies s)) t (req_description data) n r ∈ l.
Proof.
  intros Hadd.
  destruct (add_showing_movie_cases new_movie_id s data)
    as [[_ Heq]|(t & r & n & Ht & _ & Hr & _ & Hn & _ & [[_ Heq]|[_ Heq]])];
    rewrite Heq in Hadd; try (by inversion Hadd).
  injection Hadd as <-.
  set (k := new_movie_id (movies s)).
  set (row := mkMovie t (req_description data) r n).
  assert (Hin : (k, row) ∈ map_to_list (<[k := row]> (movies s)))
    by apply elem_of_map_to_list, lookup_insert_eq.
  exists t, r, n, (movie_entry <$> map_to_list (<[k := row]> (movies s))).
  repeat (split; [done|]). split; [|split].
  - unfold get_movie. simpl. by rewrite lookup_insert_eq.
  - unfold get_movies. simpl.
    destruct (map_to_list (<[k := row]> (movies s))) eqn:Hl; [|done].
    by apply not_elem_of_nil in Hin.
  - apply list_elem_of_fmap. by exists (k, row).
Qed.

(** ** Sequences of requests *)

Lemma showings_kept_refl s s' : movies s' = movies s → showings_kept s s'.
Proof.
  intros Heq i. rewrite Heq. destruct (movies s !! i) as [m|]; [|done].
  exists m. by repeat split.
Qed.

Lemma showings_kept_trans s1 s2 s3 :
  showings_kept s1 s2 → showings_kept s2 s3 → showings_kept s1 s3.
Proof.
  intros H12 H23 i. specialize (H12 i). specialize (H23 i).
  destruct (movies s1 !! i) as [m1|].
  - destruct H12 as (m2 & Hm2 & Ht & Hd & Hr & Hs). rewrite Hm2 in H23.
    destruct H23 as (m3 & Hm3 & Ht' & Hd' & Hr' & Hs').
    exists m3. repeat split; try congruence. lia.
  - by rewrite H12 in H23.
Qed.

Section route_properties.

Variable new_movie_id : gmap Z Movie → Z.
Hypothesis new_movie_id_fresh : ∀ table, table !! new_movie_id table = None.
Variable new_user_id : gmap Z User → Z.
Hypothesis new_user_id_fresh : ∀ table, table !! new_user_id table = None.
Variable blank_user : User.
Variable set_password : User → string → User.
Hypothesis set_password_username :
  ∀ u p, username (set_password u p) = username u.
Hypothesis set_password_is_admin :
  ∀ u p, is_admin (set_password u p) = is_admin u.

Lemma serve_all_invariant (P : Store → Prop) reqs :
  (∀ s req, P s → P (serve new_movie_id new_user_id blank_user set_password s req)) →
  ∀ s, P s →
    P (serve_all new_movie_id new_user_id blank_user set_password s reqs).
Proof.
  intros Hstep. induction reqs as [|req reqs IH]; intros s Hs; [done|].
  simpl. apply IH. by apply Hstep.
Qed.

(** What a request does to each table. *)
Lemma serve_users s req :
  match req with
  | PostUsers _ | PostResetPassword _ _ => True
  | _ => users (serve new_movie_id new_user_id blank_user set_password s req)
         = users s
  end.
Proof.
  destruct req as [data|uid data|data| |i|data|cu data|cu i]; simpl; try done.
  - by destruct (create_reservation_cases s data)
      as [[_ ->]|[(m & _ & _ & ->)|(k & m & _ & _ & _ & ->)]].
  - rewrite admin_required_gate. case_bool_decide; [|done].
    by destruct (add_showing_movie_cases new_movie_id s data)
      as [[_ ->]|(t & r & n & _ & _ & _ & _ & _ & _ & [[_ ->]|[_ ->]])].
  - rewrite admin_required_gate. case_bool_decide; [|done].
    unfold delete_movie. by destruct (movies s !! i).
Qed.

Lemma serve_accounts s req :
  match req with
  | PostUsers _ | PostResetPassword _ _ =>
    movies (serve new_movie_id new_user_id blank_user set_password s req)
    = movies s
    ∧ reservations (serve new_movie_id new_user_id blank_user set_password s req)
      = reservations s
  | _ => True
  end.
Proof.
  destruct req as [data|uid data|data| |i|data|cu data|cu i]; simpl; try done.
  - by destruct (create_user_cases new_user_id blank_user set_password s data)
      as [[_ ->]|(n & p & _ & _ & _ & _ & [[_ ->]|[_ ->]])].
  - unfold reset_password. destruct (users s !! uid); [|done].
    by destruct (new_password data).
Qed.

Lemma users_kept_step s req :
  users_kept s (serve new_movie_id new_user_id blank_user set_password s req).
Proof.
  intros i u Hu. pose proof (serve_users s req) as Hsame.
  destruct req as [data|uid data|data| |j|data|cu data|cu j];
    try (rewrite Hsame; by exists u); simpl.
  - destruct (create_user_cases new_user_id blank_user set_password s data)
      as [[_ ->]|(n & p & _ & _ & _ & _ & [[_ ->]|[_ ->]])];
      simpl; try (by exists u).
    exists u. split; [|done]. rewrite lookup_insert_ne; [done|].
    intros Hk. rewrite <- Hk, new_user_id_fresh in Hu. done.
  - unfold reset_password. destruct (users s !! uid) as [v|] eqn:Hv;
      [|by exists u].
    destruct (new_password data) as [p|]; [|by exists u]. simpl.
    rewrite lookup_insert. case_decide as Huid.
    + subst uid. assert (v = u) by congruence. subst v.
      exists (set_password u p). by rewrite set_password_username,
        set_password_is_admin.
    + by exists u.
Qed.

(** X11: no sequence of requests removes a user, moves one to another key,
    renames one or changes an admin flag. *)
Theorem users_never_removed s reqs i u :
  users s !! i = Some u →
  ∃ u',
    users (serve_all new_movie_id new_user_id blank_user set_password s reqs)
      !! i = Some u'
    ∧ username u' = username u ∧ is_admin u' = is_admin u.
Proof.
  revert s u. induction reqs as [|req reqs IH]; intros s u Hu.
  - by exists u.
  - simpl. destruct (users_kept_step s req i u Hu) as (u1 & Hu1 & Hn1 & Ha1).
    destruct (IH _ _ Hu1) as (u' & Hu' & Hn & Ha).
    exists u'. split; [done|]. split; congruence.
Qed.

Lemma unique_usernames_step s req :
  unique_usernames s →
  unique_usernames (serve new_movie_id new_user_id blank_user set_password s req).
Proof.
  intros Huniq. pose proof (serve_users s req) as Hsame.
  destruct req as [data|uid data|data| |j|data|cu data|cu j];
    try (unfold unique_usernames; by rewrite Hsame); simpl.
  - destruct (create_user_cases new_user_id blank_user set_password s data)
      as [[_ ->]|(n & p & _ & _ & _ & _ & [[_ ->]|[Hfree ->]])];
      simpl; try done.
    intros i j ui uj. simpl. rewrite !lookup_insert.
    repeat case_decide; intros Hi Hj Hname; simplify_eq; try congruence.
    + exfalso. apply (Hfree j uj Hj).
      by rewrite <- Hname, set_password_username.
    + exfalso. apply (Hfree i ui Hi).
      by rewrite Hname, set_password_username.
    + by eapply Huniq.
  - unfold reset_password. destruct (users s !! uid) as [v|] eqn:Hv; [|done].
    destruct (new_password data) as [p|]; [|done]. simpl.
    intros i j ui uj. simpl. rewrite !lookup_insert.
    repeat case_decide; intros Hi Hj Hname; simplify_eq; try congruence.
    + rewrite set_password_username in Hname. by eapply Huniq.
    + rewrite set_password_username in Hname. by eapply Huniq.
    + by eapply Huniq.
Qed.

(** X12: usernames that are unique stay unique under every sequence of
    requests: [create_user] refuses a taken name and nothing renames. *)
Theorem usernames_stay_unique s reqs :
  unique_usernames s →
  unique_usernames
    (serve_all new_movie_id new_user_id blank_user set_password s reqs).
Proof.
  revert s. apply serve_all_invariant. intros s req.
  apply unique_usernames_step.
Qed.

Lemma showings_kept_step s req :
  not_admin req →
  showings_kept s (serve new_movie_id new_user_id blank_user set_password s req).
Proof.
  intros Hna. pose proof (serve_accounts s req) as Hacc.
  destruct req as [data|uid data|data| |j|data|cu data|cu j];
    try (apply showings_kept_refl; first [done | by destruct Hacc]); simpl.
  - destruct (create_reservation_cases s data)
      as [[_ ->]|[(m & _ & _ & ->)|(k & m & _ & Hm & _ & ->)]];
      simpl; try (by apply showings_kept_refl).
    intros i. simpl. rewrite lookup_insert. case_decide as Hk.
    + subst k. rewrite Hm. eexists. split; [done|]. simpl.
      repeat split; try done. lia.
    + destruct (movies s !! i) as [mi|]; [|done].
      exists mi. by repeat split.
  - apply showings_kept_refl. rewrite admin_required_gate.
    simpl in Hna. by rewrite bool_decide_eq_false_2.
  - apply showings_kept_refl. rewrite admin_required_gate.
    simpl in Hna. by rewrite bool_decide_eq_false_2.
Qed.

(** X13: requests that do not come from an administrator never add, remove
    or edit a showing: every key holds the same title, description and
    room as before, and its seat counter has not gone up. *)
Theorem showings_need_admin s reqs :
  Forall not_admin reqs →
  showings_kept s
    (serve_all new_movie_id new_user_id blank_user set_password s reqs).
Proof.
  revert s. induction reqs as [|req reqs IH]; intros s Hall.
  - by apply showings_kept_refl.
  - apply Forall_cons in Hall as [Hreq Hall]. simpl.
    eapply showings_kept_trans; [by apply showings_kept_step|by apply IH].
Qed.

Lemma room_recorded_step s req :
  room_recorded s →
  room_recorded (serve new_movie_id new_user_id blank_user set_password s req).
Proof.
  intros Hrec. pose proof (serve_accounts s req) as Hacc.
  assert (Hsame : ∀ s', movies s' = movies s → reservations s' = reservations s →
            room_recorded s').
  { intros s' Hm Hr. unfold room_recorded. rewrite Hm, Hr. apply Hrec. }
  assert (Hadd : ∀ data,
            room_recorded (add_showing_movie new_movie_id s data).1).
  { intros data.
    destruct (add_showing_movie_cases new_movie_id s data)
      as [[_ ->]|(t & r & n & _ & _ & _ & _ & _ & _ & [[_ ->]|[_ ->]])];
      simpl; try done.
    intros x Hx. simpl in Hx. destruct (Hrec x Hx) as (i & m & Hi & Hm & Hr).
    exists i, m. split; [done|]. split; [|done]. simpl.
    rewrite lookup_insert_ne; [done|].
    intros Hk. rewrite <- Hk, new_movie_id_fresh in Hm. done. }
  assert (Hdel : ∀ j, room_recorded (delete_movie s j).1).
  { intros j. unfold delete_movie.
    destruct (movies s !! j) as [mj|] eqn:Hmj; simpl; [|done].
    intros x Hx. simpl in Hx. unfold delete_by_movie_id in Hx.
    apply list_elem_of_filter in Hx as [Hne Hx].
    destruct (Hrec x Hx) as (i & m & Hi & Hm & Hr).
    exists i, m. split; [done|]. split; [|done]. simpl.
    rewrite lookup_delete_ne; [done|]. intros ->. by apply Hne. }
  destruct req as [data|uid data|data| |j|data|cu data|cu j]; simpl;
    try done; try (by apply Hsame; destruct Hacc).
  - destruct (create_reservation_cases s data)
      as [[_ ->]|[(m & _ & _ & ->)|(k & m & _ & Hm & _ & ->)]];
      simpl; try done.
    intros x Hx. simpl in Hx. apply elem_of_app in Hx as [Hx|Hx].
    + destruct (Hrec x Hx) as (i & mi & Hi & Hmi & Hr).
      simpl. destruct (decide (k = i)) as [->|Hne].
      * exists i, (with_seats m (seats m - 1)). rewrite lookup_insert_eq.
        repeat split; try done. simpl. congruence.
      * exists i, mi. by rewrite lookup_insert_ne.
    + apply list_elem_of_singleton in Hx. subst x.
      exists k, (with_seats m (seats m - 1)). simpl.
      by rewrite lookup_insert_eq.
  - rewrite admin_required_gate. case_bool_decide; [apply Hadd|done].
  - rewrite admin_required_gate. case_bool_decide; [apply Hdel|done].
Qed.

(** X14: under every sequence of requests each reservation row references a
    showing that is in the store, and the room it recorded is the room of
    that showing. *)
Theorem reservations_record_room s reqs r :
  room_recorded s →
  r ∈ reservations
        (serve_all new_movie_id new_user_id blank_user set_password s reqs) →
  ∃ i m,
    movie_id r = Some i
    ∧ movies (serve_all new_movie_id new_user_id blank_user set_password s reqs)
        !! i = Some m
    ∧ room_select r = room m.
Proof.
  intros Hrec. revert r.
  change (room_recorded
            (serve_all new_movie_id new_user_id blank_user set_password s reqs)).
  revert s Hrec. apply serve_all_invariant. intros s req.
  apply room_recorded_step.
Qed.

(** X15: deleting a showing frees its room: where rooms are unique, a request
    for the room of a showing is refused while the showing is there and
    accepted right after [delete_movie] removed it. *)
Theorem delete_movie_frees_room s i m data t n :
  unique_rooms s →
  movies s !! i = Some m →
  req_title data = Some t → t ≠ "" →
  req_room data = Some (room m) → room m ≠ "" →
  req_seats data = Some n → n ≠ 0 →
  add_showing_movie new_movie_id s data
    = (s, (Message "Room already in use", 400))
  ∧ (add_showing_movie new_movie_id (delete_movie s i).1 data).2
    = (Message "Movie added successfully", 201).
Proof.
  intros Huniq Hm Ht Htn Hr Hrn Hn Hnn.
  assert (Hvalid : ¬ (missing_str (req_title data) ∨ missing_str (req_room data)
                      ∨ missing_int (req_seats data))).
  { unfold missing_str, missing_int. rewrite Ht, Hr, Hn.
    intros [[?|?]|[[?|?]|[?|?]]]; congruence. }
  split.
  - destruct (add_showing_movie_cases new_movie_id s data)
      as [[Hmiss _]|(t' & r' & n' & _ & _ & Hr' & _ & _ & _ & [[_ Heq]|[Hfree _]])];
      [done|done|].
    exfalso. apply Hfree. exists i, m. split; [done|congruence].
  - destruct (add_showing_movie_cases new_movie_id (delete_movie s i).1 data)
      as [[Hmiss _]|(t' & r' & n' & _ & _ & Hr' & _ & _ & _ & [[Huse _]|[_ Heq]])];
      [done| |by rewrite Heq].
    exfalso. destruct Huse as (j & mj & Hj & Hrj).
    unfold delete_movie in Hj. rewrite Hm in Hj. simpl in Hj.
    rewrite lookup_delete in Hj. case_decide as Hij; [done|].
    apply Hij. symmetry. apply (Huniq j i mj m Hj Hm). congruence.
Qed.

End route_properties.

(** ** Concrete runs of the other routes *)

Lemma set_plain_username u p : username (set_plain u p) = username u.
Proof. reflexivity. Qed.

Lemma set_plain_is_admin u p : is_admin (set_plain u p) = is_admin u.
Proof. reflexivity. Qed.

Lemma check_plain_set u p : check_plain (set_plain u p) (Some p) = true.
Proof. unfold check_plain. simpl. by rewrite bool_decide_eq_true_2. Qed.

Lemma unique_usernames_singleton i u ms rows :
  unique_usernames (mkStore {[ i := u ]} ms rows).
Proof.
  intros j k uj uk Hj Hk _. simpl in Hj, Hk.
  apply lookup_singleton_Some in Hj as [<- _].
  by apply lookup_singleton_Some in Hk as [<- _].
Qed.

Lemma unique_rooms_singleton us i m rows :
  unique_rooms (mkStore us {[ i := m ]} rows).
Proof.
  intros j k mj mk Hj Hk _. simpl in Hj, Hk.
  apply lookup_singleton_Some in Hj as [<- _].
  by apply lookup_singleton_Some in Hk as [<- _].
Qed.

Lemma create_user_outcome_witness :
  ∃ n p, new_username ana_request = Some n
       ∧ new_user_password ana_request = Some p
       ∧ username (set_plain (new_user nobody n) p) = n.
Proof.
  pose proof (create_user_outcome next_rowid nobody set_plain
                set_plain_username (initial_store admin_only) ana_request) as H.
  destruct (create_user next_rowid nobody set_plain (initial_store admin_only)
              ana_request) as [s' r] eqn:Heq.
  vm_compute in Heq. injection Heq as <- <-.
  destruct H as (_ & _ & _ & _ & H201).
  destruct (H201 eq_refl) as (n & p & Hn & Hp & _ & Hname & _).
  exists n, p. split; [exact Hn|]. split; [exact Hp|exact Hname].
Defined.

Lemma create_user_then_login_witness :
  status
    (login check_plain token_of
       (create_user next_rowid nobody set_plain (initial_store admin_only)
          ana_request).1
       (mkLoginRequest (Some "ana") (Some "pw"))).1
  = 200.
Proof.
  destruct (create_user_then_login next_rowid nobody set_plain check_plain
              token_of set_plain_username check_plain_set
              (initial_store admin_only) ana_request
              (create_user next_rowid nobody set_plain
                 (initial_store admin_only) ana_request).1)
    as (u & _ & _ & Hlogin).
  - reflexivity.
  - change (mkLoginRequest (Some "ana") (Some "pw"))
      with (mkLoginRequest (new_username ana_request)
              (new_user_password ana_request)).
    rewrite Hlogin. reflexivity.
Defined.

Lemma reset_password_then_login_witness :
  login check_plain token_of
    (reset_password set_plain (initial_store admin_only) 1
       (mkResetRequest (Some "new"))).1
    (mkLoginRequest (Some "admin") (Some "new"))
  = ((LoginBody "Login successful" "token" 1 true, 200), Some 1).
Proof.
  apply (reset_password_then_login set_plain check_plain token_of
           set_plain_username check_plain_set
           (initial_store admin_only) 1 (mkUser "admin" "hash" true) "new").
  - apply unique_usernames_singleton.
  - reflexivity.
  - reflexivity.
Defined.

Lemma create_app_admin_witness :
  has_admin (create_app next_rowid nobody set_plain (initial_store ∅)).
Proof.
  exact (proj1 (create_app_admin next_rowid (@next_rowid_fresh User) nobody
                  set_plain (initial_store ∅))).
Defined.

Lemma created_movie_is_listed_witness :
  get_movie
    (add_showing_movie next_rowid (initial_store admin_only) (alien_request 2)).1
    1
  = (MovieDetail 1 "Alien" None, 200).
Proof.
  destruct (created_movie_is_listed next_rowid (initial_store admin_only)
              (alien_request 2)
              (add_showing_movie next_rowid (initial_store admin_only)
                 (alien_request 2)).1)
    as (t & r & n & l & Ht & _ & _ & Hget & _).
  - reflexivity.
  - injection Ht as <-. exact Hget.
Defined.

Lemma users_never_removed_witness :
  ∃ u',
    users (serve_all next_rowid next_rowid nobody set_plain
             (initial_store admin_only)
             [PostResetPassword 1 (mkResetRequest (Some "x"));
              PostUsers ana_request]) !! 1 = Some u'
    ∧ username u' = "admin" ∧ is_admin u' = true.
Proof.
  apply (users_never_removed next_rowid next_rowid (@next_rowid_fresh User)
           nobody set_plain set_plain_username set_plain_is_admin
           (initial_store admin_only)
           [PostResetPassword 1 (mkResetRequest (Some "x"));
            PostUsers ana_request]
           1 (mkUser "admin" "hash" true)).
  reflexivity.
Defined.

Lemma usernames_stay_unique_witness :
  unique_usernames
    (serve_all next_rowid next_rowid nobody set_plain
       (initial_store admin_only)
       [PostUsers ana_request; PostUsers ana_request]).
Proof.
  apply (usernames_stay_unique next_rowid next_rowid nobody set_plain
           set_plain_username).
  apply unique_usernames_singleton.
Defined.

Lemma showings_need_admin_witness :
  showings_kept one_seat_store
    (serve_all next_rowid next_rowid nobody set_plain one_seat_store
       visitor_requests).
Proof.
  apply (showings_need_admin next_rowid next_rowid nobody set_plain).
  repeat constructor; simpl; congruence.
Defined.

Lemma reservations_record_room_witness :
  ∃ i m,
    movie_id (mkReservation (Some 1) (Some 1) "A") = Some i
    ∧ movies (serve_all next_rowid next_rowid nobody set_plain one_seat_store
                [PostReservations first_request]) !! i = Some m
    ∧ room_select (mkReservation (Some 1) (Some 1) "A") = room m.
Proof.
  apply (reservations_record_room next_rowid (@next_rowid_fresh Movie)
           next_rowid nobody set_plain one_seat_store
           [PostReservations first_request]).
  - intros r Hr. simpl in Hr. by apply not_elem_of_nil in Hr.
  - apply list_elem_of_singleton. reflexivity.
Defined.

Lemma delete_movie_frees_room_witness :
  (add_showing_movie next_rowid (delete_movie one_seat_store 1).1
     (alien_request 5)).2
  = (Message "Movie added successfully", 201).
Proof.
  apply (delete_movie_frees_room next_rowid one_seat_store 1
           (mkMovie "Alien" None "A" 1) (alien_request 5) "Alien" 5).
  - apply unique_rooms_singleton.
  - reflexivity.
  - reflexivity.
  - done.
  - reflexivity.
  - done.
  - reflexivity.
  - done.
Defined.
